(** * YiMengQing plugin: check-in streaks, divination draw, JSON-backed lists

    A shallow embedding of the state-bearing parts of the plugin:

    - [handlers/checkin.py]   : [CheckinHandler.handle_checkin] and its loader,
    - [handlers/divination.py]: [DivinationHandler._generate_luck],
    - [config.py]             : [ConfigManager._load_json], the admin predicates
                                and the blacklist operations,
    - [handlers/developer.py] : [handle_developer], [check_developer_commands].

    Python [int] is [Z], [str] is [string] (UTF-8 bytes), [float] is the
    kernel's binary64 [float]; a [dict] whose order matters is an association
    list, the check-in document is a [gmap]. Code that can raise returns a
    [result]. *)

From Stdlib Require Import ZArith QArith Qabs List Ascii String Floats.
From stdpp Require Import base option list gmap strings pretty.

Set Warnings "-inexact-float,-register-all".
Set Default Proof Using "Type".

Local Open Scope Z_scope.
Local Open Scope string_scope.

(** ** Exceptions and fallible results *)

Inductive Exn : Type :=
| FileNotFoundError
| JSONDecodeError
| KeyError (key : string)
| ZeroDivisionError
| ValueError
| IndexError
| UnicodeDecodeError.

Inductive result (A : Type) : Type :=
| Ok (a : A)
| Raise (e : Exn).
Arguments Ok {A} a.
Arguments Raise {A} e.

Definition rbind {A B : Type} (r : result A) (k : A -> result B) : result B :=
  match r with
  | Ok a => k a
  | Raise e => Raise e
  end.

Notation "x <-? r ;; k" := (rbind r (fun x => k))
  (at level 100, r at next level, right associativity).

(** What [open(path, "r", encoding="utf-8")] followed by [json.load] meets
    on disk: no file, a file whose text is not JSON, a file whose bytes are
    not UTF-8 (a write cut inside a character), or a file holding a value of
    the collection's type. [json.dump] followed by [json.load] is taken to
    give the value back. *)
Inductive Document (T : Type) : Type :=
| Missing
| Corrupt
| Undecodable
| Holds (v : T).
Arguments Missing {T}.
Arguments Corrupt {T}.
Arguments Undecodable {T}.
Arguments Holds {T} v.

(** [with open(file_path, "r") as f: return json.load(f)] *)
Definition json_load {T : Type} (doc : Document T) : result T :=
  match doc with
  | Missing => Raise FileNotFoundError
  | Corrupt => Raise JSONDecodeError
  | Undecodable => Raise UnicodeDecodeError
  | Holds v => Ok v
  end.

(** ** Dictionaries *)

(** A Python [dict] in insertion order, for the places where the order is
    part of the behaviour ([_generate_luck] turns the keys and the values of
    [final_weights] into two parallel lists). *)
Definition dict (V : Type) : Type := list (string * V).

Fixpoint dict_get {V : Type} (d : dict V) (k : string) : option V :=
  match d with
  | [] => None
  | (k', v) :: d' => if String.eqb k k' then Some v else dict_get d' k
  end.

(** [d[k] = v]: an existing key keeps its place, a new one goes last. *)
Fixpoint dict_set {V : Type} (d : dict V) (k : string) (v : V) : dict V :=
  match d with
  | [] => [(k, v)]
  | (k', v') :: d' =>
    if String.eqb k k' then (k', v) :: d' else (k', v') :: dict_set d' k v
  end.

(** [d[k]] as an expression. *)
Definition dict_item {V : Type} (d : dict V) (k : string) : result V :=
  match dict_get d k with
  | Some v => Ok v
  | None => Raise (KeyError k)
  end.

(** ** handlers/checkin.py *)

Module Checkin.

Record HistoryEntry : Type := mkEntry {
  h_date : string;
  h_time : string;
  h_period : string
}.

Record CheckinRecord : Type := mkRecord {
  user_id : Z;
  group_id : Z;
  first_date : string;
  last_date : string;
  total_days : Z;
  continuous_days : Z;
  history : list HistoryEntry
}.

(** The readings [handle_checkin] takes from its surroundings: the bucket
    returned by [get_time_period()] (utils/time_utils.py, not part of the
    sources at hand) and the three [strftime] renderings of
    [datetime.now()]. *)
Record Clock : Type := mkClock {
  period : string;
  today : string;
  now_time : string;
  yesterday : string
}.

(** How a call ends: the two early returns, the normal path with the record
    it wrote, or an exception escaping the handler. *)
Inductive Outcome : Type :=
| Blackout
| AlreadyCheckedIn
| CheckedIn (new_record : CheckinRecord)
| Raised (e : Exn).

(** The text handed to [bot.send_group_msg] on each path. The morning text
    also carries the fetched almanac line and every success text a random
    suffix; neither is modelled. *)
Inductive Reply : Type :=
| MsgBlackout
| MsgAlready
| MsgMorning (days continuous : Z)
| MsgAfternoon (days continuous : Z)
| MsgInvalidPeriod.

(** [key = f"{user_id}_{group_id}"] *)
Definition checkin_key (uid gid : Z) : string :=
  pretty uid +:+ "_" +:+ pretty gid.

(** [_load_checkin_data]: no [try] around [open] and [json.load]. *)
Definition _load_checkin_data (doc : Document (gmap string CheckinRecord))
  : result (gmap string CheckinRecord) :=
  json_load doc.

(** [_save_checkin_data]: the document is overwritten as a whole. *)
Definition _save_checkin_data (data : gmap string CheckinRecord)
  : Document (gmap string CheckinRecord) :=
  Holds data.

(** The literal passed as default to [data.get(key, {...})]. *)
Definition fresh_record (uid gid : Z) (today : string) : CheckinRecord :=
  {| user_id := uid; group_id := gid; first_date := today; last_date := "";
     total_days := 0; continuous_days := 0; history := [] |}.

(** [_get_user_record] *)
Definition _get_user_record (uid gid : Z)
    (doc : Document (gmap string CheckinRecord)) : result (option CheckinRecord) :=
  data <-? _load_checkin_data doc ;;
  Ok (data !! checkin_key uid gid).

(** [handle_checkin], guard by guard: the bucket test, the load, the test
    for a check-in of today, then the new record and the save. The result
    pairs how the call ended with the document it leaves on disk. *)
Definition handle_checkin (clk : Clock) (uid gid : Z)
    (doc : Document (gmap string CheckinRecord))
  : Outcome * Document (gmap string CheckinRecord) :=
  if String.eqb (period clk) "night" then (Blackout, doc)
  else
    let key := checkin_key uid gid in
    match _load_checkin_data doc with
    | Raise e => (Raised e, doc)
    | Ok data =>
      let record := default (fresh_record uid gid (today clk)) (data !! key) in
      if String.eqb (last_date record) (today clk) then (AlreadyCheckedIn, doc)
      else
        let continuous :=
          if String.eqb (last_date record) (yesterday clk)
          then continuous_days record + 1
          else if negb (String.eqb (last_date record) "") then 1
          else 1 in
        let new_record :=
          {| user_id := user_id record;
             group_id := group_id record;
             first_date := first_date record;
             last_date := today clk;
             total_days := total_days record + 1;
             continuous_days := continuous;
             history := history record ++
               [ {| h_date := today clk; h_time := now_time clk;
                    h_period := period clk |} ] |} in
        (CheckedIn new_record, _save_checkin_data (<[key := new_record]> data))
    end.

(** [_send_checkin_response] and the two rejection messages. *)
Definition reply_of (clk : Clock) (o : Outcome) : option Reply :=
  match o with
  | Blackout => Some MsgBlackout
  | AlreadyCheckedIn => Some MsgAlready
  | CheckedIn r =>
    if String.eqb (period clk) "morning"
    then Some (MsgMorning (total_days r) (continuous_days r))
    else if String.eqb (period clk) "afternoon"
    then Some (MsgAfternoon (total_days r) (continuous_days r))
    else Some MsgInvalidPeriod
  | Raised _ => None
  end.

(** Modelled from the spec: [get_time_period] of utils/time_utils.py, which
    is imported by the handlers but is not among the sources. Three buckets
    on the local hour: morning [5,12), afternoon [12,20), night otherwise. *)
Definition get_time_period (hour : Z) : string :=
  if ((5 <=? hour) && (hour <? 12))%Z then "morning"
  else if ((12 <=? hour) && (hour <? 20))%Z then "afternoon"
  else "night".

(** The documents a run of the handler can leave behind, starting from the
    [{}] that [_init_data_file] writes. *)
Inductive reachable : Document (gmap string CheckinRecord) -> Prop :=
| reachable_init : reachable (Holds ∅)
| reachable_step clk uid gid doc :
    reachable doc -> reachable (snd (handle_checkin clk uid gid doc)).

(** The record invariant of the data model. *)
Definition record_ok (r : CheckinRecord) : Prop :=
  continuous_days r <= total_days r /\
  Z.of_nat (length (history r)) = total_days r.

(** The record the normal path writes, as a function of the record it read. *)
Definition checked_in (clk : Clock) (record : CheckinRecord) : CheckinRecord :=
  {| user_id := user_id record;
     group_id := group_id record;
     first_date := first_date record;
     last_date := today clk;
     total_days := total_days record + 1;
     continuous_days :=
       if String.eqb (last_date record) (yesterday clk)
       then continuous_days record + 1 else 1;
     history := history record ++
       [ {| h_date := today clk; h_time := now_time clk; h_period := period clk |} ] |}.

(** Sample readings and stores used to run the handler. *)
Definition afternoon_clock : Clock :=
  {| period := "afternoon"; today := "2024-03-02"; now_time := "12:30:00";
     yesterday := "2024-03-01" |}.

Definition night_clock : Clock :=
  {| period := "night"; today := "2024-03-02"; now_time := "21:15:00";
     yesterday := "2024-03-01" |}.

Definition yesterday_record : CheckinRecord :=
  {| user_id := 1; group_id := 2; first_date := "2024-02-29";
     last_date := "2024-03-01"; total_days := 2; continuous_days := 2;
     history := [ mkEntry "2024-02-29" "09:00:00" "morning";
                  mkEntry "2024-03-01" "09:05:00" "morning" ] |}.

Definition today_record : CheckinRecord :=
  checked_in afternoon_clock yesterday_record.

(** A store is well formed when each of its records is. *)
Definition store_ok (data : gmap string CheckinRecord) : Prop :=
  forall k r, data !! k = Some r -> record_ok r.

(** One call never rewrites history: each record present before is still
    present, with the old history as a prefix of the new one. *)
Definition histories_extended (data data' : gmap string CheckinRecord) : Prop :=
  forall k r, data !! k = Some r ->
    exists r', data' !! k = Some r' /\ history r `prefix_of` history r'.

(** Sample documents. *)
Definition yesterday_store : gmap string CheckinRecord :=
  {[ checkin_key 1 2 := yesterday_record ]}.

Definition today_store : gmap string CheckinRecord :=
  <[ checkin_key 1 2 := today_record ]> yesterday_store.

End Checkin.

(** ** handlers/divination.py *)

Module Divination.
Local Open Scope nat_scope.

(** [sum] over floats depends on the interpreter: CPython up to 3.11 adds
    from left to right, CPython 3.12 and later carry a Neumaier compensation
    term. Both start from the integer 0. *)
Inductive PySum : Type :=
| Sequential
| Compensated.

(** The compensated loop: [f] is the running sum, [c] the compensation,
    added at the end when it is finite and not zero. *)
Fixpoint neumaier (f c : float) (xs : list float) : float :=
  match xs with
  | [] => if negb (c =? 0)%float && is_finite c then (f + c)%float else f
  | x :: xs' =>
    let t := (f + x)%float in
    let c' := if (abs x <=? abs f)%float
              then (c + ((f - t) + x))%float
              else (c + ((x - t) + f))%float in
    neumaier t c' xs'
  end.

Definition py_sum (v : PySum) (xs : list float) : float :=
  match v with
  | Sequential => fold_left PrimFloat.add xs 0%float
  | Compensated =>
    match xs with
    | [] => 0%float
    | x :: xs' => neumaier (0 + x)%float 0%float xs'
    end
  end.

(** [x / y] on floats. *)
Definition py_truediv (x y : float) : result float :=
  if (y =? 0)%float then Raise ZeroDivisionError else Ok (x / y)%float.

(** The source of randomness behind the module-level functions of [random]:
    one hidden generator state, read by [random()] and by [_randbelow(n)]
    (which [choice] uses), the latter always below [n]. *)
Class RandomSource (G : Type) : Type := {
  rs_random : G -> float * G;
  rs_randbelow : nat -> G -> nat * G;
  rs_randbelow_lt : forall n g, 0 < n -> fst (rs_randbelow n g) < n
}.

(** Code that reads the generator and may raise. *)
Definition Draw (G A : Type) : Type := G -> result A * G.

Definition draw_ret {G A : Type} (a : A) : Draw G A := fun g => (Ok a, g).

Definition draw_lift {G A : Type} (r : result A) : Draw G A := fun g => (r, g).

Definition draw_bind {G A B : Type} (m : Draw G A) (k : A -> Draw G B) : Draw G B :=
  fun g =>
    match m g with
    | (Ok a, g') => k a g'
    | (Raise e, g') => (Raise e, g')
    end.

Notation "x <~ m ;; k" := (draw_bind m (fun x => k))
  (at level 100, m at next level, right associativity).

(** [itertools.accumulate] with the default addition. *)
Fixpoint accumulate_from (acc : float) (ws : list float) : list float :=
  match ws with
  | [] => []
  | w :: ws' => let s := (acc + w)%float in s :: accumulate_from s ws'
  end.

Definition accumulate (ws : list float) : list float :=
  match ws with
  | [] => []
  | w :: ws' => w :: accumulate_from w ws'
  end.

(** [bisect.bisect_right(a, x, lo, hi)]: the loop
    [while lo < hi: mid = (lo + hi) // 2; if x < a[mid]: hi = mid else: lo = mid + 1],
    which runs at most [hi - lo] times. *)
Fixpoint bisect_loop (fuel : nat) (a : list float) (x : float) (lo hi : nat) : nat :=
  match fuel with
  | O => lo
  | S fuel' =>
    if lo <? hi then
      let mid := (lo + hi) / 2 in
      if (x <? nth mid a nan)%float
      then bisect_loop fuel' a x lo mid
      else bisect_loop fuel' a x (mid + 1) hi
    else lo
  end.

Definition bisect (a : list float) (x : float) (lo hi : nat) : nat :=
  bisect_loop (hi - lo) a x lo hi.

Section Random.
Context {G : Type} `{RandomSource G}.

(** [random.choices(population, weights=weights, k=1)[0]] *)
Definition choices {A : Type} (population : list A) (weights : list float)
  : Draw G A :=
  fun g =>
    let n := length population in
    let cum_weights := accumulate weights in
    if negb (length cum_weights =? n) then (Raise ValueError, g)
    else
      match last cum_weights with
      | None => (Raise IndexError, g)
      | Some top =>
        let total := (top + 0)%float in
        if (total <=? 0)%float then (Raise ValueError, g)
        else if negb (is_finite total) then (Raise ValueError, g)
        else
          let (x, g') := rs_random g in
          match nth_error population (bisect cum_weights (x * total)%float 0 (n - 1)) with
          | Some a => (Ok a, g')
          | None => (Raise IndexError, g')
          end
      end.

(** [random.choice(seq)] *)
Definition choice {A : Type} (seq : list A) : Draw G A :=
  fun g =>
    match seq with
    | [] => (Raise IndexError, g)
    | _ =>
      let (i, g') := rs_randbelow (length seq) g in
      match nth_error seq i with
      | Some a => (Ok a, g')
      | None => (Raise IndexError, g')
      end
    end.

End Random.

(** [self.constellations]: the names accepted by [handle_divination]. *)
Definition constellations : list string :=
  [ "白羊座"; "金牛座"; "双子座"; "巨蟹座"; "狮子座"; "处女座";
    "天秤座"; "天蝎座"; "射手座"; "摩羯座"; "水瓶座"; "双鱼座" ].

(** [_load_lucky_data] *)
Definition _load_lucky_data : dict (list string) :=
  [ ("大吉", [ "今天鸿运当头，宜大胆行动";
               "贵人相助，事业学业双丰收";
               "感情运势极佳，单身者有望邂逅良缘" ]);
    ("中吉", [ "整体运势不错，可尝试新事物";
               "财运平稳，适合小额投资";
               "人际关系和谐，易得他人帮助" ]);
    ("小吉", [ "运势平稳，按部就班即可";
               "注意细节处理，避免小失误";
               "健康运良好，适合锻炼身体" ]);
    ("凶",   [ "今日易遇波折，重要决策需谨慎";
               "注意口舌是非，谨言慎行为上";
               "财运不佳，避免大额消费" ]);
    ("大凶", [ "诸事不宜，建议低调行事";
               "健康预警，注意休息调养";
               "易遇小人，重要文件需备份" ]) ].

(** The two literals at the head of [_generate_luck]. *)
Definition weights : dict float :=
  [ ("大吉", 0.15); ("中吉", 0.25); ("小吉", 0.35); ("凶", 0.2); ("大凶", 0.05) ]%float.

Definition adjustments : dict (dict float) :=
  [ ("白羊座", [ ("大吉", 0.05); ("凶", -0.03) ]);
    ("摩羯座", [ ("中吉", 0.1); ("大凶", -0.05) ]);
    ("双鱼座", [ ("小吉", 0.07); ("凶", 0.03) ]) ]%float.

(** [for k, v in adjustments[constellation].items(): final_weights[k] += v] *)
Fixpoint apply_adjustment (final_weights : dict float) (items : dict float)
  : result (dict float) :=
  match items with
  | [] => Ok final_weights
  | (k, v) :: items' =>
    w <-? dict_item final_weights k ;;
    apply_adjustment (dict_set final_weights k (w + v)%float) items'
  end.

(** [final_weights] after the adjustment step, for a given adjustment table. *)
Definition adjusted_weights (table : dict (dict float)) (constellation : string)
  : result (dict float) :=
  let final_weights := weights in
  match dict_get table constellation with
  | Some items => apply_adjustment final_weights items
  | None => Ok final_weights
  end.

(** [for k in final_weights: final_weights[k] /= total] *)
Fixpoint divide_all (final_weights : dict float) (total : float)
  : result (dict float) :=
  match final_weights with
  | [] => Ok []
  | (k, w) :: rest =>
    w' <-? py_truediv w total ;;
    rest' <-? divide_all rest total ;;
    Ok ((k, w') :: rest')
  end.

(** [final_weights] as handed to [random.choices]. *)
Definition final_weights_with (v : PySum) (table : dict (dict float))
    (constellation : string) : result (dict float) :=
  final_weights <-? adjusted_weights table constellation ;;
  let total := py_sum v (map snd final_weights) in
  divide_all final_weights total.

(** The last two steps of [_generate_luck]: draw the level, then the detail. *)
Definition draw_from {G : Type} `{RandomSource G}
    (lucky_data : dict (list string)) (final_weights : dict float)
  : Draw G (string * string) :=
  let levels := map fst final_weights in
  let probs := map snd final_weights in
  lucky_level <~ choices levels probs ;;
  details <~ draw_lift (dict_item lucky_data lucky_level) ;;
  detail <~ choice details ;;
  draw_ret (lucky_level, detail).

(** [_generate_luck] with its local table [adjustments] made a parameter. *)
Definition _generate_luck_with {G : Type} `{RandomSource G} (v : PySum)
    (table : dict (dict float)) (constellation : string)
  : Draw G (string * string) :=
  final_weights <~ draw_lift (final_weights_with v table constellation) ;;
  draw_from _load_lucky_data final_weights.

(** [DivinationHandler._generate_luck]: the only argument is the
    constellation; the generator is that of the [random] module. *)
Definition _generate_luck {G : Type} `{RandomSource G} (v : PySum)
    (constellation : string) : Draw G (string * string) :=
  _generate_luck_with v adjustments constellation.

(** A generator that replays a script: [random()] returns the next float,
    [_randbelow(n)] the next index reduced below [n]. *)
Record Script : Type := mkScript {
  script_floats : list float;
  script_indices : list nat
}.

Definition script_random (s : Script) : float * Script :=
  match script_floats s with
  | [] => (0%float, s)
  | x :: xs => (x, {| script_floats := xs; script_indices := script_indices s |})
  end.

Definition script_randbelow (n : nat) (s : Script) : nat * Script :=
  match script_indices s with
  | [] => (0, s)
  | i :: rest => (i mod n, {| script_floats := script_floats s; script_indices := rest |})
  end.

Lemma script_randbelow_lt n s : 0 < n -> fst (script_randbelow n s) < n.
Proof.
  intros Hn. unfold script_randbelow.
  destruct (script_indices s); simpl; [done|].
  apply Nat.mod_upper_bound. lia.
Qed.

#[export] Instance script_source : RandomSource Script :=
  {| rs_random := script_random;
     rs_randbelow := script_randbelow;
     rs_randbelow_lt := script_randbelow_lt |}.

(** The value a float stands for, as an exact rational. *)
Definition float_to_Q (x : float) : option Q :=
  match Prim2SF x with
  | S754_zero _ => Some 0%Q
  | S754_finite s m e =>
    let q := if (0 <=? e)%Z then inject_Z (Z.pos m * 2 ^ e)
             else (Z.pos m # Pos.pow 2 (Z.to_pos (- e)))%Q in
    Some (if s then (- q)%Q else q)
  | _ => None
  end.

Fixpoint exact_sum (xs : list float) : option Q :=
  match xs with
  | [] => Some 0%Q
  | x :: xs' =>
    match float_to_Q x, exact_sum xs' with
    | Some q, Some r => Some (q + r)%Q
    | _, _ => None
    end
  end.

(** The distribution in the words of the specification: each tier's base
    weight, plus the category's delta where one is listed, over the sum of the
    weights so adjusted. *)
Definition spec_adjusted (constellation tier : string) (base : float) : float :=
  match dict_get adjustments constellation with
  | None => base
  | Some deltas =>
    match dict_get deltas tier with
    | Some d => (base + d)%float
    | None => base
    end
  end.

Definition spec_adjusted_table (constellation : string) : dict float :=
  map (fun tw => (fst tw, spec_adjusted constellation (fst tw) (snd tw))) weights.

Definition spec_distribution (v : PySum) (constellation : string) : dict float :=
  let adjusted := spec_adjusted_table constellation in
  let total := py_sum v (map snd adjusted) in
  map (fun tw => (fst tw, (snd tw / total)%float)) adjusted.





(** The checks [random.choices] makes before it draws. *)
Definition choices_accepts (n : nat) (weights : list float) : bool :=
  (length (accumulate weights) =? n) &&
  match last (accumulate weights) with
  | Some top => negb (top + 0 <=? 0)%float && is_finite (top + 0)%float
  | None => false
  end.


End Divination.

(** ** config.py *)

Module Config.

(** The JSON values the data files hold. *)
Inductive json : Type :=
| JDict (fields : list (string * json))
| JList (items : list json)
| JInt (n : Z)
| JStr (s : string).

(** The fields of [PluginConfig] (the data directory apart). *)
Record PluginConfig : Type := mkConfig {
  master_qq : Z;
  agents : list Z;
  vip_users : list Z;
  debug_mode : bool;
  permission_mode : bool;
  group_approve_mode : bool;
  shutdown_code : option string
}.

(** [required_files] of [_ensure_data_dir]: each collection with the
    content it is created with. *)
Definition required_files : list (string * json) :=
  [ ("blacklist.json", JDict [ ("users", JList []); ("words", JList []) ]);
    ("whitelist.json", JDict [ ("users", JList []) ]);
    ("checkin_data.json", JDict []);
    ("blocked_words.json", JList []);
    ("user_settings.json", JDict []) ].

(** [_load_json]: the read, inside
    [try ... except (FileNotFoundError, json.JSONDecodeError): return {}];
    any other exception of the read escapes. *)
Definition _load_json (data_dir : string -> Document json) (filename : string)
  : result json :=
  match json_load (data_dir filename) with
  | Ok v => Ok v
  | Raise FileNotFoundError => Ok (JDict [])
  | Raise JSONDecodeError => Ok (JDict [])
  | Raise e => Raise e
  end.

Definition is_master (cfg : PluginConfig) (user_id : Z) : bool :=
  bool_decide (user_id = master_qq cfg).

Definition is_agent (cfg : PluginConfig) (user_id : Z) : bool :=
  bool_decide (user_id ∈ agents cfg).

Definition is_admin (cfg : PluginConfig) (user_id : Z) : bool :=
  is_master cfg user_id || is_agent cfg user_id.

Definition is_vip (cfg : PluginConfig) (user_id : Z) : bool :=
  bool_decide (user_id ∈ vip_users cfg).

(** The blacklist document, [{"users": [...], "words": [...]}]. *)
Record Blacklist : Type := mkBlacklist {
  users : list Z;
  words : list string
}.

(** The manager's copy of the blacklist and the file behind it. *)
Record Manager : Type := mkManager {
  blacklist : Blacklist;
  blacklist_json : Document Blacklist
}.

(** [list.remove(x)]: the first occurrence goes, the rest stays. *)
Fixpoint py_remove (x : Z) (l : list Z) : list Z :=
  match l with
  | [] => []
  | y :: l' => if bool_decide (x = y) then l' else y :: py_remove x l'
  end.

(** [_save_json("blacklist.json", self.blacklist)] *)
Definition _save_blacklist (bl : Blacklist) : Manager :=
  {| blacklist := bl; blacklist_json := Holds bl |}.

Definition add_to_blacklist (user_id : Z) (m : Manager) : Manager :=
  if negb (bool_decide (user_id ∈ users (blacklist m)))
  then _save_blacklist {| users := users (blacklist m) ++ [user_id];
                          words := words (blacklist m) |}
  else m.

Definition remove_from_blacklist (user_id : Z) (m : Manager) : Manager :=
  if bool_decide (user_id ∈ users (blacklist m))
  then _save_blacklist {| users := py_remove user_id (users (blacklist m));
                          words := words (blacklist m) |}
  else m.

Definition is_blacklisted (user_id : Z) (m : Manager) : bool :=
  bool_decide (user_id ∈ users (blacklist m)).

(** The manager right after [_ensure_data_dir] created the file and
    [_load_data_files] read it back. *)
Definition initial_manager : Manager :=
  _save_blacklist {| users := []; words := [] |}.

(** The managers a run can reach by adding and removing users. *)
Inductive manager_reachable : Manager -> Prop :=
| manager_initial : manager_reachable initial_manager
| manager_add u m :
    manager_reachable m -> manager_reachable (add_to_blacklist u m)
| manager_remove u m :
    manager_reachable m -> manager_reachable (remove_from_blacklist u m).

End Config.

(** ** handlers/developer.py *)

Module Developer.
Import Config.

(** The classes [check_developer_commands] tests with [isinstance]. *)
Inductive EventKind : Type :=
| GroupMessageEvent
| PrivateMessageEvent
| OtherMessageEvent.

Record MessageEvent : Type := mkEvent {
  kind : EventKind;
  user_id : Z;
  message : string
}.

(** What the handlers ask of the bot: [bot.send(event, text)] and
    [bot.send_private_msg(user_id=..., message=text)]. *)
Inductive Sent : Type :=
| Send (text : string)
| SendPrivateMsg (to : Z) (text : string).

(** The [str] methods and the [int] conversion the admin commands use.
    [py_int] is [None] where [int(s)] raises [ValueError], which a text that
    [isdigit] accepts does not rule out: [isdigit] accepts the superscript
    two, which [int] refuses, and [int] refuses a text of more digits than
    the interpreter's limit allows. *)
Class StrLib : Type := {
  py_strip : string -> string;
  py_isdigit : string -> bool;
  py_int : string -> option Z
}.

(** Whether a byte continues a UTF-8 sequence (10xxxxxx). *)
Definition is_continuation (a : ascii) : bool :=
  let n := nat_of_ascii a in (128 <=? n)%nat && (n <? 192)%nat.

Fixpoint drop_continuation (s : string) : string :=
  match s with
  | String a s' => if is_continuation a then drop_continuation s' else s
  | EmptyString => s
  end.

(** [s[n:]], counted in code points on the UTF-8 bytes. *)
Fixpoint py_slice_from (n : nat) (s : string) : string :=
  match n with
  | O => s
  | S n' =>
    match s with
    | String _ s' => py_slice_from n' (drop_continuation s')
    | EmptyString => s
    end
  end.

Definition newline : string := String (ascii_of_nat 10) EmptyString.

Definition developer_menu : string :=
  String.concat newline
    [ "小生……做噩梦了";
      "1.代理人设置☞参谋[QQ号]";
      "2.删除代理人☞变卦[QQ号]";
      "3.接管入群申请☞观星";
      "4.停止接管☞合眼";
      "5.设置审核条件☞挪盘";
      "6.禁言☞襟声[QQ号] [时长分钟]";
      "7.私信☞窃语[群号]#[QQ号]#[内容]";
      "8.黑名单☞山海经[QQ号]";
      "9.白名单☞封神榜[QQ号]";
      "10.开启权限审核☞修炼";
      "11.关闭权限审核☞修行";
      "12.屏蔽词☞定声[词汇]";
      "13.解除屏蔽☞诵经[词汇]";
      "14.关闭机器人☞闭关" ].

Definition handle_developer (cfg : PluginConfig) (user_id : Z) : list Sent :=
  if negb (is_admin cfg user_id) then []
  else [ SendPrivateMsg user_id developer_menu ].

Definition set_agents (cfg : PluginConfig) (l : list Z) : PluginConfig :=
  {| master_qq := master_qq cfg; agents := l; vip_users := vip_users cfg;
     debug_mode := debug_mode cfg; permission_mode := permission_mode cfg;
     group_approve_mode := group_approve_mode cfg;
     shutdown_code := shutdown_code cfg |}.

Definition set_group_approve_mode (cfg : PluginConfig) (b : bool) : PluginConfig :=
  {| master_qq := master_qq cfg; agents := agents cfg; vip_users := vip_users cfg;
     debug_mode := debug_mode cfg; permission_mode := permission_mode cfg;
     group_approve_mode := b; shutdown_code := shutdown_code cfg |}.

Section Commands.
Context `{StrLib}.

(** The handlers return their [bool] or the exception they end with, what
    they sent, and the configuration they leave ([config.save_config()] only
    persists it). [int(qq_str)] comes before any send or change. *)
Definition _handle_agent_add (cfg : PluginConfig) (qq_str : string)
  : result bool * list Sent * PluginConfig :=
  if negb (py_isdigit qq_str) then (Ok false, [], cfg)
  else
    match py_int qq_str with
    | None => (Raise ValueError, [], cfg)
    | Some qq =>
      if (2 <=? length (agents cfg))%nat
      then (Ok true, [ Send "代理人已满两位，无法再添加" ], cfg)
      else (Ok true, [ Send "啊……副店长么?小生记住了。" ],
            set_agents cfg (agents cfg ++ [qq]))
    end.

Definition _handle_agent_remove (cfg : PluginConfig) (qq_str : string)
  : result bool * list Sent * PluginConfig :=
  if negb (py_isdigit qq_str) then (Ok false, [], cfg)
  else
    match py_int qq_str with
    | None => (Raise ValueError, [], cfg)
    | Some qq =>
      if bool_decide (qq ∈ agents cfg)
      then (Ok true, [ Send "副店长走了?来日方长，定可再见的。" ],
            set_agents cfg (py_remove qq (agents cfg)))
      else (Ok true, [ Send "这位并非代理人呢" ], cfg)
    end.

Definition check_developer_commands (cfg : PluginConfig) (event : MessageEvent)
  : result bool * list Sent * PluginConfig :=
  match kind event with
  | OtherMessageEvent => (Ok false, [], cfg)
  | _ =>
    let user_id := user_id event in
    if negb (is_admin cfg user_id) then (Ok false, [], cfg)
    else
      let msg := py_strip (message event) in
      if String.prefix "参谋" msg
      then _handle_agent_add cfg (py_strip (py_slice_from 2 msg))
      else if String.prefix "变卦" msg
      then _handle_agent_remove cfg (py_strip (py_slice_from 2 msg))
      else if String.eqb msg "观星"
      then (Ok true, [ Send "知道了，小生眼观六路，耳听八方。" ],
            set_group_approve_mode cfg true)
      else if String.eqb msg "合眼"
      then (Ok true, [ Send "已停止审核入群申请" ], set_group_approve_mode cfg false)
      else (Ok false, [], cfg)
  end.

End Commands.

(** The string functions on ASCII input and on the superscript digits
    (U+00B9, U+00B2, U+00B3, in UTF-8 the byte 194 and then 185, 178 or
    179): strip blanks, test for digits, read a decimal number. [isdigit]
    accepts the superscripts, [int] does not; [int] also refuses more than
    4300 digits, the default limit of the interpreter. *)
Definition is_blank (a : ascii) : bool :=
  let n := nat_of_ascii a in ((9 <=? n) && (n <=? 13) || (n =? 32))%nat.

Definition is_ascii_digit (a : ascii) : bool :=
  let n := nat_of_ascii a in ((48 <=? n) && (n <=? 57))%nat.

Fixpoint lstrip (s : string) : string :=
  match s with
  | String a s' => if is_blank a then lstrip s' else s
  | EmptyString => s
  end.

Definition ascii_strip (s : string) : string :=
  String.rev (lstrip (String.rev (lstrip s))).

Definition is_superscript (a : ascii) : bool :=
  let n := nat_of_ascii a in ((n =? 185) || (n =? 178) || (n =? 179))%nat.

Fixpoint digits_only (bytes : list ascii) : bool :=
  match bytes with
  | [] => true
  | a :: rest =>
    if is_ascii_digit a then digits_only rest
    else if (nat_of_ascii a =? 194)%nat then
      match rest with
      | b :: rest' => is_superscript b && digits_only rest'
      | [] => false
      end
    else false
  end.

Definition ascii_isdigit (s : string) : bool :=
  negb (String.eqb s "") && digits_only (list_ascii_of_string s).

(** [int(s)] on the texts [isdigit] accepts. *)
Definition ascii_int (s : string) : option Z :=
  if negb (String.eqb s "") &&
     forallb is_ascii_digit (list_ascii_of_string s) &&
     (String.length s <=? 4300)%nat
  then Some (fold_left (fun acc a => 10 * acc + (Z.of_nat (nat_of_ascii a) - 48))
                       (list_ascii_of_string s) 0)
  else None.

#[export] Instance ascii_strlib : StrLib :=
  {| py_strip := ascii_strip; py_isdigit := ascii_isdigit; py_int := ascii_int |}.

Definition with_message (event : MessageEvent) (text : string) : MessageEvent :=
  {| kind := kind event; user_id := user_id event; message := text |}.

Definition sample_config : PluginConfig :=
  {| master_qq := 10001; agents := [10002]; vip_users := [1055411737];
     debug_mode := false; permission_mode := false; group_approve_mode := false;
     shutdown_code := None |}.

End Developer.

(** ** handlers/checkin.py: the rest of the handler *)

Module CheckinExt.
Import Checkin.

(** [_init_data_file]: [{}] is written when no file exists; a file that
    exists, whatever it holds, is left alone. *)
Definition _init_data_file (doc : Document (gmap string CheckinRecord))
  : Document (gmap string CheckinRecord) :=
  match doc with
  | Missing => Holds ∅
  | _ => doc
  end.

(** Calls for one subject, one after the other. *)
Fixpoint checkins (clks : list Clock) (uid gid : Z)
    (doc : Document (gmap string CheckinRecord))
  : Document (gmap string CheckinRecord) :=
  match clks with
  | [] => doc
  | clk :: rest => checkins rest uid gid (snd (handle_checkin clk uid gid doc))
  end.

(** Readings taken on days that follow one another, none at night: each
    [yesterday] is the [today] of the reading before ([last] for the first). *)
Fixpoint day_after_day (last : string) (clks : list Clock) : Prop :=
  match clks with
  | [] => True
  | clk :: rest =>
    period clk <> "night" /\ yesterday clk = last /\ today clk <> last /\
    day_after_day (today clk) rest
  end.

(** The history entries those readings leave. *)
Definition entry_of (clk : Clock) : HistoryEntry :=
  {| h_date := today clk; h_time := now_time clk; h_period := period clk |}.

(** What a stored record always satisfies. *)
Definition record_shape (key : string) (r : CheckinRecord) : Prop :=
  key = checkin_key (user_id r) (group_id r) /\
  1 <= continuous_days r /\
  1 <= total_days r /\
  (exists first rest, history r = first :: rest /\ first_date r = h_date first) /\
  (exists init final, history r = (init ++ [final])%list /\ last_date r = h_date final).

(** *** [_get_horoscope] *)

(** [self.horoscope_cache] and [self.cache_time]; times are microseconds. *)
Record HoroscopeCache : Type := mkCache {
  horoscope_cache : option string;
  cache_time : option Z
}.

(** What the request inside the [try] comes to: an exception (connection,
    timeout, [raise_for_status]) or the text of the page. *)
Inductive Fetch : Type :=
| FetchFailed
| Page (content : string).

Definition six_hours : Z := 6 * 3600 * 1000000.

(** Number of code points of a UTF-8 string: [len(s)]. *)
Fixpoint py_len (s : string) : nat :=
  match s with
  | EmptyString => 0
  | String a s' =>
    if Developer.is_continuation a then py_len s' else S (py_len s')
  end.

(** Bytes up to the next lead byte. *)
Fixpoint take_continuation (s : string) : string :=
  match s with
  | String a s' =>
    if Developer.is_continuation a then String a (take_continuation s') else EmptyString
  | EmptyString => EmptyString
  end.

(** [s[:n]], counted in code points. *)
Fixpoint py_slice_to (n : nat) (s : string) : string :=
  match n with
  | O => EmptyString
  | S n' =>
    match s with
    | String a s' =>
      String a (take_continuation s' +:+
                py_slice_to n' (Developer.drop_continuation s'))
    | EmptyString => EmptyString
    end
  end.

(** The first occurrence of [needle]: what precedes it, and the string from
    it on ([needle in s] and [s.index(needle)] in one). *)
Fixpoint py_find (needle s : string) : option (string * string) :=
  if String.prefix needle s then Some (EmptyString, s)
  else
    match s with
    | EmptyString => None
    | String a s' =>
      match py_find needle s' with
      | Some (before, from) => Some (String a before, from)
      | None => None
      end
    end.

(** The text cut out of the page, or the stock line. *)
Definition almanac_of (content : string) : string :=
  match py_find "今日宜" content, py_find "今日忌" content with
  | Some (before_yi, from_yi), Some (before_ji, _) =>
    let start := py_len before_yi in
    let stop := (py_len before_ji + 10)%nat in
    py_slice_to (stop - start) from_yi
  | _, _ => "今日宜：占卜 交友；忌：争吵"
  end.

Definition fetch_failed_text : string := "今日黄历获取失败，宜谨慎行事".

(** [if self.horoscope_cache and self.cache_time]: an empty text counts
    as no cache. *)
Definition cache_usable (st : HoroscopeCache) : option (string * Z) :=
  match horoscope_cache st, cache_time st with
  | Some text, Some t => if String.eqb text "" then None else Some (text, t)
  | _, _ => None
  end.

(** [_get_horoscope]: [now] is the clock at the freshness test, [fetch] what
    the request would give, [now'] the clock when the answer is stored. The
    result is the text, whether a request was made, and the cache left. *)
Definition _get_horoscope (now : Z) (fetch : Fetch) (now' : Z) (st : HoroscopeCache)
  : string * bool * HoroscopeCache :=
  match cache_usable st with
  | Some (text, t) =>
    if (now - t <? six_hours)%Z then (text, false, st)
    else
      match fetch with
      | FetchFailed => (fetch_failed_text, true, st)
      | Page content =>
        (almanac_of content, true,
         {| horoscope_cache := Some (almanac_of content); cache_time := Some now' |})
      end
  | None =>
    match fetch with
    | FetchFailed => (fetch_failed_text, true, st)
    | Page content =>
      (almanac_of content, true,
       {| horoscope_cache := Some (almanac_of content); cache_time := Some now' |})
    end
  end.

End CheckinExt.

(** ** handlers/divination.py: the handler around the draw *)

(** Exceptions of the interpreter beyond those of [Exn]. *)
Inductive PyExn : Type :=
| Builtin (e : Exn)
| NameError (name : string)
| AttributeError (attribute : string)
| TypeError
| RegexError.

(** A result, or the exception that ended the call. *)
Inductive outcome (A : Type) : Type :=
| Done (a : A)
| Fails (e : PyExn).
Arguments Done {A} a.
Arguments Fails {A} e.

(** A message handed to the bot: a plain [str], or a [Message] made of text
    segments. *)
Inductive Outgoing : Type :=
| Plain (text : string)
| Rich (segments : list string).

Module DivinationExt.
Import Divination.
Local Open Scope list_scope.

Definition newline : string := String (ascii_of_nat 10) EmptyString.

(** An entry of [self.history]. *)
Record HistoryItem : Type := mkItem {
  item_date : string;
  item_constellation : string;
  item_result : string
}.

(** [_get_invalid_constellation_msg] *)
Definition _get_invalid_constellation_msg : string :=
  "请指定正确的星座名称，例如：" +:+ newline +:+
  "占卜白羊座" +:+ newline +:+
  "可用星座：" +:+ newline +:+
  String.concat " " constellations.

Definition icon_map : dict string :=
  [ ("大吉", "🎉"); ("中吉", "✨"); ("小吉", "⭐"); ("凶", "⚠️"); ("大凶", "💀") ].

Definition advices : dict (list string) :=
  [ ("大吉", [ "趁势而为，大胆推进计划"; "适合开展新项目或表白心意" ]);
    ("中吉", [ "保持现状会有不错收获"; "可以尝试小幅度创新" ]);
    ("凶",   [ "重要决定请三思而后行"; "今日不宜签署重要文件" ]) ].

Definition advice_prefix : string := newline +:+ newline +:+ "💡 专属建议: ".

Definition vip_line : string :=
  newline +:+ newline +:+ "🎁 您是我们的贵宾，今日可享专属优惠！".

(** [list.insert(i, x)] for an index inside the list. *)
Definition py_insert {A : Type} (i : nat) (x : A) (l : list A) : list A :=
  take i l ++ x :: drop i l.

(** [_get_personal_advice] *)
Definition _get_personal_advice {G : Type} `{RandomSource G}
    (lucky_level : string) : Draw G string :=
  match dict_get advices lucky_level with
  | Some choices_of_level => choice choices_of_level
  | None => draw_ret ""
  end.

(** [_build_message]: the segments of the [Message] it returns. *)
Definition _build_message {G : Type} `{RandomSource G}
    (user_id : Z) (constellation lucky_level detail : string)
  : Draw G (list string) :=
  let msg := [ "✨ " +:+ constellation +:+ "今日运势 ✨" +:+ newline;
               "「" +:+ lucky_level +:+ "」" +:+ newline;
               detail ] in
  icon <~ draw_lift (dict_item icon_map lucky_level) ;;
  let msg := py_insert 1 (icon +:+ " ") msg in
  advice <~ _get_personal_advice lucky_level ;;
  let msg := if String.eqb advice "" then msg
             else msg ++ [ advice_prefix +:+ advice ] in
  let msg := if bool_decide (user_id = 1055411737) then msg ++ [ vip_line ]
             else msg in
  draw_ret msg.

(** [_record_history]: the list of the user is created when missing, then
    the entry to append is built, and building it evaluates
    [datetime.now()] in a module that never imports [datetime]. *)
Definition _record_history (user_id : Z) (history : gmap Z (list HistoryItem))
  : PyExn * gmap Z (list HistoryItem) :=
  let history := match history !! user_id with
                 | Some _ => history
                 | None => <[user_id := []]> history
                 end in
  (NameError "datetime", history).

(** [handle_divination]: what was sent to the group, the exception the
    call ended with (if any), the history and the generator it leaves. *)
Definition handle_divination {G : Type} `{RandomSource G} (v : PySum)
    (user_id group_id : Z) (constellation : string)
    (history : gmap Z (list HistoryItem)) (g : G)
  : list (Z * Outgoing) * option PyExn * gmap Z (list HistoryItem) * G :=
  if negb (bool_decide (constellation ∈ constellations))
  then ([ (group_id, Plain _get_invalid_constellation_msg) ], None, history, g)
  else
    match _generate_luck v constellation g with
    | (Raise e, g1) => ([], Some (Builtin e), history, g1)
    | (Ok (lucky_level, detail), g1) =>
      match _build_message user_id constellation lucky_level detail g1 with
      | (Raise e, g2) => ([], Some (Builtin e), history, g2)
      | (Ok msg, g2) =>
        let (e, history') := _record_history user_id history in
        ([ (group_id, Rich msg) ], Some e, history', g2)
      end
    end.

(** A call [self._generate_luck(constellation, *sources, **named)] with a
    text for the constellation. The function is declared
    [def _generate_luck(self, constellation: str)]: any further argument,
    by position or by name, has no parameter to bind to, and the call ends
    with [TypeError] before the body runs. The body reads the generator of
    the [random] module. *)
Definition call_generate_luck {G S : Type} `{RandomSource G} (v : PySum)
    (constellation : string) (sources : list S) (named : list (string * S))
    (module_random : G) : outcome (string * string) * G :=
  match sources, named with
  | [], [] =>
    match _generate_luck v constellation module_random with
    | (Ok drawn, g') => (Done drawn, g')
    | (Raise e, g') => (Fails (Builtin e), g')
    end
  | _, _ => (Fails TypeError, module_random)
  end.

(** The histories a handler can hold after any number of calls. *)
Inductive history_reachable {G : Type} `{RandomSource G}
  : gmap Z (list HistoryItem) -> Prop :=
| history_initial : history_reachable ∅
| history_step v user_id group_id constellation history (g : G) :
    history_reachable history ->
    history_reachable
      (snd (fst (handle_divination v user_id group_id constellation history g))).

End DivinationExt.

(** ** config.py and handlers/developer.py: start-up, shutdown codes,
       permission requests *)

Module ConfigExt.
Import Config.
Local Open Scope list_scope.

(** [open(file_path, "w")] followed by [json.dump(content, f)]. *)
Definition write_json (data_dir : string -> Document json) (filename : string)
    (content : json) : string -> Document json :=
  fun name => if String.eqb name filename then Holds content else data_dir name.

(** [file_path.exists()] *)
Definition exists_file {T : Type} (doc : Document T) : bool :=
  match doc with
  | Missing => false
  | _ => true
  end.

(** The loop of [_ensure_data_dir] over a table of files. *)
Fixpoint ensure_files (files : list (string * json))
    (data_dir : string -> Document json) : string -> Document json :=
  match files with
  | [] => data_dir
  | (filename, default_content) :: rest =>
    ensure_files rest
      (if exists_file (data_dir filename) then data_dir
       else write_json data_dir filename default_content)
  end.

Definition _ensure_data_dir (data_dir : string -> Document json)
  : string -> Document json :=
  ensure_files required_files data_dir.

End ConfigExt.

Module DeveloperExt.
Import Config Developer.
Local Open Scope list_scope.

(** Messages handled one after the other, each on the configuration the
    one before left. *)
Fixpoint run_commands `{StrLib} (cfg : PluginConfig) (events : list MessageEvent)
  : PluginConfig :=
  match events with
  | [] => cfg
  | event :: rest => run_commands (snd (check_developer_commands cfg event)) rest
  end.

Definition shutdown_failed : string := "验证失败，关闭码错误或已过期".

(** [handle_shutdown]; [code] is what [secrets.token_hex(4)] returned.
    [self.shutdown_codes] maps a code to [str(user_id)] of who asked. *)
Definition handle_shutdown (cfg : PluginConfig) (user_id : Z) (code : string)
    (shutdown_codes : gmap string string) : list Sent * gmap string string :=
  if negb (is_admin cfg user_id) then ([], shutdown_codes)
  else
    ([ SendPrivateMsg (master_qq cfg)
         ("关闭验证码: " +:+ code +:+ " (有效期10分钟)");
       Send ("已给主人发送关闭码，输入正确即可关闭本bot" +:+ newline +:+
             "请输入: " +:+ code) ],
     <[code := pretty user_id]> shutdown_codes).

(** [verify_shutdown] *)
Definition verify_shutdown (shutdown_codes : gmap string string)
    (user_id : Z) (code : string) : bool * list Sent :=
  match shutdown_codes !! code with
  | Some owner =>
    if String.eqb owner (pretty user_id)
    then (true, [ Send "已闭关，有缘再见" ])
    else (false, [ Send shutdown_failed ])
  | None => (false, [ Send shutdown_failed ])
  end.

(** The code tables a handler can hold under a fixed configuration. *)
Inductive codes_reachable (cfg : PluginConfig) : gmap string string -> Prop :=
| codes_initial : codes_reachable cfg ∅
| codes_step user_id code codes :
    codes_reachable cfg codes ->
    codes_reachable cfg (snd (handle_shutdown cfg user_id code codes)).

(** The fields of a [GroupMessageEvent] that the handlers read. *)
Record GroupMessage : Type := mkGroupMessage {
  message_id : Z;
  event_time : Z;
  sender_id : Z;
  group_id : Z;
  sender_card : option string;
  sender_nickname : option string;
  event_message : string
}.

(** An entry of [self.permission_requests]. *)
Record PermissionRequest : Type := mkRequest {
  req_user_id : Z;
  req_group_id : Z;
  req_user_name : option string;
  req_time : string;
  req_message : string;
  responded : bool
}.

(** [a or b] on optional strings: [None] and [""] are false. *)
Definition py_or (a b : option string) : option string :=
  match a with
  | Some text => if String.eqb text "" then b else a
  | None => b
  end.

(** How an f-string prints an optional string. *)
Definition py_str (a : option string) : string :=
  match a with
  | Some text => text
  | None => "None"
  end.

Definition request_id_of (event : GroupMessage) : string :=
  pretty (event_time event) +:+ "_" +:+ pretty (sender_id event) +:+ "_" +:+
  pretty (group_id event).

Definition permission_notice (event : GroupMessage) (time : string) : string :=
  "⚠️ 权限申请通知 ⚠️" +:+ newline +:+
  "群号: " +:+ pretty (group_id event) +:+ newline +:+
  "用户: " +:+ pretty (sender_id event) +:+ "(" +:+
    py_str (sender_nickname event) +:+ ")" +:+ newline +:+
  "时间: " +:+ time +:+ newline +:+
  "内容: " +:+ event_message event +:+ newline +:+
  "请回复: 同意" +:+ request_id_of event +:+ " 或 拒绝" +:+ request_id_of event.

(** The loop over the admins; [clock k] is what the [k]-th call of
    [get_current_time()] returns. *)
Fixpoint notify_admins (event : GroupMessage) (clock : nat -> string)
    (k : nat) (admins : list Z) : list Sent :=
  match admins with
  | [] => []
  | admin_id :: rest =>
    SendPrivateMsg admin_id (permission_notice event (clock k)) ::
    notify_admins event clock (S k) rest
  end.

(** [request_permission] *)
Definition request_permission (cfg : PluginConfig) (event : GroupMessage)
    (clock : nat -> string) (requests : gmap string PermissionRequest)
  : list Sent * gmap string PermissionRequest :=
  if negb (permission_mode cfg) then ([], requests)
  else
    let request :=
      {| req_user_id := sender_id event;
         req_group_id := group_id event;
         req_user_name := py_or (sender_card event) (sender_nickname event);
         req_time := clock 0%nat;
         req_message := event_message event;
         responded := false |} in
    (notify_admins event clock 1 (master_qq cfg :: agents cfg),
     <[request_id_of event := request]> requests).

(** Who a message goes to, when it names someone. *)
Definition recipient (m : Sent) : option Z :=
  match m with
  | SendPrivateMsg to _ => Some to
  | Send _ => None
  end.

End DeveloperExt.

(** ** handlers/group_manage.py and core.py: what happens to a group message *)

Module GroupManage.
Import Config Developer DeveloperExt.
Local Open Scope list_scope.

(** [str.lower] and [re.search(pattern, text, re.IGNORECASE)] (whether it
    found a match, or the error of a pattern that does not compile). *)
Class TextLib : Type := {
  py_lower : string -> string;
  re_search : string -> string -> outcome bool
}.

(** [needle in text] on strings. *)
Definition py_contains (needle text : string) : bool :=
  match CheckinExt.py_find needle text with
  | Some _ => true
  | None => false
  end.

(** The characters of a string, one string each: a new one starts at
    every byte that is not a continuation byte. *)
Fixpoint py_chars (s : string) : list string :=
  match s with
  | EmptyString => []
  | String a s' =>
    if is_continuation a then py_chars s'
    else String a (CheckinExt.take_continuation s') :: py_chars s'
  end.

(** [value.get(key, default)]: only a dict has [get]. *)
Definition json_get (value : json) (key : string) (default : json) : outcome json :=
  match value with
  | JDict fields =>
    Done (match dict_get fields key with Some v => v | None => default end)
  | _ => Fails (AttributeError "get")
  end.

(** What [for x in value] runs over. *)
Definition json_iter (value : json) : outcome (list json) :=
  match value with
  | JList items => Done items
  | JDict fields => Done (map (fun kv => JStr (fst kv)) fields)
  | JStr text => Done (map JStr (py_chars text))
  | JInt _ => Fails TypeError
  end.

(** An entry of violation_log.json. *)
Record Violation : Type := mkViolation {
  v_user_id : Z;
  v_group_id : Z;
  v_word : string;
  v_time : string
}.

(** What the handlers ask of the bot. *)
Inductive BotCall : Type :=
| Reply (m : Sent)
| DeleteMsg (message_id : Z)
| SendGroupMsg (group_id : Z) (text : string)
| SetGroupAddRequest (flag sub_type : string) (approve : bool) (reason : string).

(** [_log_violation]: the log is read inside
    [try ... except (FileNotFoundError, json.JSONDecodeError): logs = []],
    extended and written back; any other exception of the read escapes and
    the file stays as it is. A log that parses holds a list of entries, as
    every log this function writes does. *)
Definition _log_violation (user_id group_id : Z) (word time : string)
    (log : Document (list Violation)) : outcome unit * Document (list Violation) :=
  let entry := {| v_user_id := user_id; v_group_id := group_id;
                  v_word := word; v_time := time |} in
  match json_load log with
  | Ok logs => (Done tt, Holds (logs ++ [ entry ]))
  | Raise FileNotFoundError => (Done tt, Holds [ entry ])
  | Raise JSONDecodeError => (Done tt, Holds [ entry ])
  | Raise e => (Fails (Builtin e), log)
  end.

Definition blocked_warning (event : GroupMessage) (word : string) : string :=
  "检测到违规内容，已自动处理" +:+ newline +:+
  "违规用户: " +:+ py_str (sender_nickname event) +:+ newline +:+
  "违规内容: " +:+ CheckinExt.py_slice_to 20 word +:+ "..." +:+ newline +:+
  "请遵守群规，文明交流".

(** [_handle_blocked_word]; a failure of [delete_msg] is swallowed, so the
    call is recorded as attempted. The log is written last. *)
Definition _handle_blocked_word (event : GroupMessage) (word time : string)
    (log : Document (list Violation))
  : outcome unit * list BotCall * Document (list Violation) :=
  let (logged, log') :=
    _log_violation (sender_id event) (group_id event) word time log in
  (logged,
   [ DeleteMsg (message_id event);
     SendGroupMsg (group_id event) (blocked_warning event word) ],
   log').

(** [await self._handle_blocked_word(...)] followed by [return True]. *)
Definition then_true (logged : outcome unit) : outcome bool :=
  match logged with
  | Done _ => Done true
  | Fails e => Fails e
  end.

Section Scan.
Context `{TextLib}.

(** The first loop: the first word whose lower-case form occurs in the
    lower-case message. *)
Fixpoint scan_words (words : list json) (message : string) : outcome (option string) :=
  match words with
  | [] => Done None
  | JStr word :: rest =>
    if py_contains (py_lower word) (py_lower message) then Done (Some word)
    else scan_words rest message
  | _ :: _ => Fails (AttributeError "lower")
  end.

(** The second loop: the first pattern that matches. *)
Fixpoint scan_patterns (patterns : list json) (message : string)
  : outcome (option string) :=
  match patterns with
  | [] => Done None
  | JStr pattern :: rest =>
    match re_search pattern message with
    | Fails e => Fails e
    | Done true => Done (Some pattern)
    | Done false => scan_patterns rest message
    end
  | _ :: _ => Fails TypeError
  end.

(** [check_blocked_words]: [blocked_words] is [config.blocked_words], [time]
    what [get_current_time()] returns. *)
Definition check_blocked_words (cfg : PluginConfig) (blocked_words : json)
    (event : GroupMessage) (time : string) (log : Document (list Violation))
  : outcome bool * list BotCall * Document (list Violation) :=
  let message := event_message event in
  if is_admin cfg (sender_id event) then (Done false, [], log)
  else
    match json_get blocked_words "words" (JList []) with
    | Fails e => (Fails e, [], log)
    | Done words_value =>
      match json_iter words_value with
      | Fails e => (Fails e, [], log)
      | Done words =>
        match scan_words words message with
        | Fails e => (Fails e, [], log)
        | Done (Some word) =>
          let '(logged, calls, log') := _handle_blocked_word event word time log in
          (then_true logged, calls, log')
        | Done None =>
          match json_get blocked_words "regex_patterns" (JList []) with
          | Fails e => (Fails e, [], log)
          | Done patterns_value =>
            match json_iter patterns_value with
            | Fails e => (Fails e, [], log)
            | Done patterns =>
              match scan_patterns patterns message with
              | Fails e => (Fails e, [], log)
              | Done (Some pattern) =>
                let '(logged, calls, log') :=
                  _handle_blocked_word event pattern time log in
                (then_true logged, calls, log')
              | Done None => (Done false, [], log)
              end
            end
          end
        end
      end
    end.

End Scan.

(** The fields of a [RequestEvent] that [handle_request] reads. *)
Record RequestEvent : Type := mkRequestEvent {
  request_type : string;
  sub_type : string;
  request_user_id : Z;
  request_group_id : Z;
  comment : option string;
  flag : string
}.

Definition join_notice (event : RequestEvent) (comment : string) : string :=
  "📨 加群申请通知" +:+ newline +:+
  "群号: " +:+ pretty (request_group_id event) +:+ newline +:+
  "申请人: " +:+ pretty (request_user_id event) +:+ newline +:+
  "申请内容: " +:+ comment +:+ newline +:+
  "处理命令: 同意 " +:+ flag event +:+ " 或 拒绝 " +:+ flag event.

(** [_forward_to_admins] *)
Definition _forward_to_admins (cfg : PluginConfig) (event : RequestEvent)
    (comment : string) : list BotCall :=
  map (fun admin_id => Reply (SendPrivateMsg admin_id (join_notice event comment)))
      (master_qq cfg :: agents cfg).

(** [handle_request]. Two answers come from code that is not to hand and
    are taken as given: [whitelisted] is [config.is_whitelisted(user_id)]
    (its body is cut off in config.py), [auto_approved] is what
    [_auto_approve_check] returns (it reads [config.approve_rules], which
    the visible part of config.py does not define). *)
Definition handle_request (cfg : PluginConfig) (m : Manager)
    (whitelisted auto_approved : bool) (event : RequestEvent) : list BotCall :=
  if negb (String.eqb (request_type event) "group") ||
     negb (String.eqb (sub_type event) "add") then []
  else if negb (group_approve_mode cfg) then []
  else
    let comment := match py_or (comment event) (Some "无附加信息") with
                   | Some text => text
                   | None => ""
                   end in
    if is_blacklisted (request_user_id event) m
    then [ SetGroupAddRequest (flag event) (sub_type event) false "您在本群的黑名单中" ]
    else if whitelisted
    then [ SetGroupAddRequest (flag event) (sub_type event) true "欢迎加入" ]
    else if auto_approved
    then [ SetGroupAddRequest (flag event) (sub_type event) true "自动审核通过" ]
    else _forward_to_admins cfg event comment.

(** [handle_message] of core.py: the three checks in order. It returns how
    the call ended, what was asked of the bot, and the configuration, the
    pending requests and the violation log it leaves. *)
Definition handle_message `{StrLib} `{TextLib} (cfg : PluginConfig)
    (blocked_words : json) (event : GroupMessage) (time : string)
    (clock : nat -> string) (requests : gmap string PermissionRequest)
    (log : Document (list Violation))
  : outcome unit * list BotCall * PluginConfig *
    gmap string PermissionRequest * Document (list Violation) :=
  let '(handled, sent, cfg1) :=
    check_developer_commands cfg
      (mkEvent GroupMessageEvent (sender_id event) (event_message event)) in
  match handled with
  | Raise e => (Fails (Builtin e), map Reply sent, cfg1, requests, log)
  | Ok true => (Done tt, map Reply sent, cfg1, requests, log)
  | Ok false =>
    match check_blocked_words cfg1 blocked_words event time log with
    | (Fails e, calls, log') =>
      (Fails e, map Reply sent ++ calls, cfg1, requests, log')
    | (Done true, calls, log') =>
      (Done tt, map Reply sent ++ calls, cfg1, requests, log')
    | (Done false, calls, log') =>
      if permission_mode cfg1 &&
         negb (is_admin cfg1 (sender_id event) || is_vip cfg1 (sender_id event))
      then
        let (notices, requests') := request_permission cfg1 event clock requests in
        (Done tt, map Reply sent ++ calls ++ map Reply notices, cfg1, requests', log')
      else (Done tt, map Reply sent ++ calls, cfg1, requests, log')
    end
  end.

(** Lower case on ASCII letters, and a search for patterns that are plain
    text, to run the handlers on examples. *)
Definition ascii_lower_char (a : ascii) : ascii :=
  let n := nat_of_ascii a in
  if ((65 <=? n) && (n <=? 90))%nat then ascii_of_nat (n + 32) else a.

Fixpoint ascii_lower (s : string) : string :=
  match s with
  | EmptyString => EmptyString
  | String a s' => String (ascii_lower_char a) (ascii_lower s')
  end.

#[export] Instance plain_textlib : TextLib :=
  {| py_lower := ascii_lower;
     re_search := fun pattern text =>
       Done (py_contains (ascii_lower pattern) (ascii_lower text)) |}.

(** A configuration with the permission mode off. *)
Definition set_permission_off (cfg : PluginConfig) : PluginConfig :=
  {| master_qq := master_qq cfg; agents := agents cfg; vip_users := vip_users cfg;
     debug_mode := debug_mode cfg; permission_mode := false;
     group_approve_mode := group_approve_mode cfg;
     shutdown_code := shutdown_code cfg |}.

End GroupManage.

(** ** models/__init__.py and models/user.py: streak bookkeeping *)

Module Models.
Local Open Scope list_scope.

(** A [datetime]: the day as its ordinal ([date().toordinal()]) and the
    time within the day. *)
Record DateTime : Type := mkDateTime {
  ordinal : Z;
  time_of_day : Z
}.

(** [UserModel.get_checkin_streak] of models/__init__.py; [now] is
    [datetime.now()]. The difference of two dates in days is the difference
    of their ordinals. *)
Definition get_checkin_streak (last_checkin : option DateTime) (now : DateTime) : Z :=
  match last_checkin with
  | None => 0
  | Some last =>
    let today := ordinal now in
    let last_date := ordinal last in
    if (today =? last_date)%Z then today - last_date else 0
  end.

(** [UserStats] of models/user.py. *)
Record UserStats : Type := mkStats {
  total_checkins : Z;
  current_streak : Z;
  max_streak : Z;
  violation_count : Z
}.


(** The Python values that [dict()] of a model holds and [json.dump] meets:
    those of the kinds the data files hold, and [datetime]. *)
Inductive pyvalue : Type :=
| PInt (n : Z)
| PStr (s : string)
| PDatetime (d : DateTime)
| PList (items : list pyvalue)
| PDict (fields : list (string * pyvalue)).

(** [json.dump] with no [default]: the value as [json.load] would read it
    back, or [TypeError] at the first value that is not serializable. *)
Fixpoint json_dump (x : pyvalue) : outcome Config.json :=
  match x with
  | PInt n => Done (Config.JInt n)
  | PStr s => Done (Config.JStr s)
  | PDatetime _ => Fails TypeError
  | PList items =>
    let each :=
      fix each (l : list pyvalue) : outcome (list Config.json) :=
        match l with
        | [] => Done []
        | y :: l' =>
          match json_dump y with
          | Fails e => Fails e
          | Done j =>
            match each l' with
            | Fails e => Fails e
            | Done js => Done (j :: js)
            end
          end
        end in
    match each items with
    | Fails e => Fails e
    | Done js => Done (Config.JList js)
    end
  | PDict fields =>
    let each :=
      fix each (l : list (string * pyvalue)) : outcome (list (string * Config.json)) :=
        match l with
        | [] => Done []
        | (k, y) :: l' =>
          match json_dump y with
          | Fails e => Fails e
          | Done j =>
            match each l' with
            | Fails e => Fails e
            | Done js => Done ((k, j) :: js)
            end
          end
        end in
    match each fields with
    | Fails e => Fails e
    | Done js => Done (Config.JDict js)
    end
  end.

(** [with open(path, "w") as f: json.dump(x, f)]: the file is emptied when
    it is opened and the text is written piece by piece, so a dump that
    fails leaves the beginning of a JSON text, which is not JSON. *)
Definition dump_to_file (x : pyvalue) : outcome unit * Document Config.json :=
  match json_dump x with
  | Done j => (Done tt, Holds j)
  | Fails e => (Fails e, Corrupt)
  end.



(** [self.stats.dict()] *)
Definition stats_dict (stats : UserStats) : pyvalue :=
  PDict [ ("total_checkins", PInt (total_checkins stats));
          ("current_streak", PInt (current_streak stats));
          ("max_streak", PInt (max_streak stats));
          ("violation_count", PInt (violation_count stats)) ].




End Models.

(** ** utils/message_utils.py: cutting a long message *)

Module MessageUtils.
Local Open Scope list_scope.

(** A [str] as the list of its code points. *)
Definition text : Type := list N.

Definition newline : N := 10%N.

(** [len(s)] *)
Definition len (s : text) : Z := Z.of_nat (length s).

(** [s.split('\n')] *)
Fixpoint split_lines (s : text) : list text :=
  match s with
  | [] => [ [] ]
  | c :: rest =>
    if (c =? newline)%N then [] :: split_lines rest
    else
      match split_lines rest with
      | line :: lines => (c :: line) :: lines
      | [] => [ [ c ] ]
      end
  end.

(** [[para[i:i+n] for i in range(0, len(para), n)]] for a positive [n]. *)
Fixpoint slices_loop (fuel n : nat) (para : text) : list text :=
  match fuel with
  | O => []
  | S fuel' =>
    match para with
    | [] => []
    | _ => take n para :: slices_loop fuel' n (drop n para)
    end
  end.

(** The same for any integer step: [range] refuses a step of 0 and is
    empty for a negative one. *)
Definition slices (max_len : Z) (para : text) : result (list text) :=
  if (max_len =? 0)%Z then Raise ValueError
  else if (max_len <? 0)%Z then Ok []
  else Ok (slices_loop (length para) (Z.to_nat max_len) para).

(** [if current_chunk: current_chunk += "\n" + para else: current_chunk = para] *)
Definition extend_chunk (current para : text) : text :=
  match current with
  | [] => para
  | _ => current ++ newline :: para
  end.

(** One round of the loop over the paragraphs, on [(chunks, current_chunk)]. *)
Definition split_step (max_len : Z) (state : list text * text) (para : text)
  : result (list text * text) :=
  let '(chunks, current) := state in
  if (max_len <? len current + len para + 1)%Z then
    let '(chunks, current) :=
      match current with
      | [] => (chunks, current)
      | _ => (chunks ++ [ current ], [])
      end in
    if (max_len <? len para)%Z then
      pieces <-? slices max_len para ;;
      Ok (chunks ++ pieces, current)
    else Ok (chunks, extend_chunk current para)
  else Ok (chunks, extend_chunk current para).

Fixpoint split_loop (max_len : Z) (state : list text * text) (paragraphs : list text)
  : result (list text * text) :=
  match paragraphs with
  | [] => Ok state
  | para :: rest =>
    state' <-? split_step max_len state para ;;
    split_loop max_len state' rest
  end.

(** [MessageParser.split_message] *)
Definition split_message (msg : text) (max_len : Z) : result (list text) :=
  if (len msg <=? max_len)%Z then Ok [ msg ]
  else
    state <-? split_loop max_len ([], []) (split_lines msg) ;;
    let '(chunks, current) := state in
    Ok (match current with
        | [] => chunks
        | _ => chunks ++ [ current ]
        end).

(** The characters of a text that are not line breaks. *)
Definition letters (s : text) : text :=
  filter (B := list N) (fun c => c <> newline) s.

End MessageUtils.

(** * Properties *)

(** ** The check-in state machine *)

Module CheckinSpec.
Import Checkin.

Lemma eqb_true_iff (a b : string) : String.eqb a b = true <-> a = b.
Proof. apply String.eqb_eq. Qed.

Lemma eqb_false_iff (a b : string) : String.eqb a b = false <-> a <> b.
Proof. apply String.eqb_neq. Qed.

(** Every way [handle_checkin] can end, by the guards it passes in order. *)
Lemma handle_checkin_cases clk uid gid doc :
  let key := checkin_key uid gid in
  (period clk = "night" /\ handle_checkin clk uid gid doc = (Blackout, doc)) \/
  (period clk <> "night" /\ doc = Missing /\
     handle_checkin clk uid gid doc = (Raised FileNotFoundError, doc)) \/
  (period clk <> "night" /\ doc = Corrupt /\
     handle_checkin clk uid gid doc = (Raised JSONDecodeError, doc)) \/
  (period clk <> "night" /\ doc = Undecodable /\
     handle_checkin clk uid gid doc = (Raised UnicodeDecodeError, doc)) \/
  (exists data record,
     period clk <> "night" /\ doc = Holds data /\
     record = default (fresh_record uid gid (today clk)) (data !! key) /\
     ((last_date record = today clk /\
         handle_checkin clk uid gid doc = (AlreadyCheckedIn, doc)) \/
      (last_date record <> today clk /\
         handle_checkin clk uid gid doc =
           (CheckedIn (checked_in clk record),
            Holds (<[key := checked_in clk record]> data))))).
Proof.
  intros key. unfold handle_checkin.
  destruct (String.eqb (period clk) "night") eqn:Hn.
  - left. split; [by apply eqb_true_iff|done].
  - apply eqb_false_iff in Hn. right.
    destruct doc as [| | |data]; simpl.
    + left. done.
    + right. left. done.
    + right. right. left. done.
    + right. right. right. exists data, (default (fresh_record uid gid (today clk)) (data !! key)).
      split; [done|]. split; [done|]. split; [done|].
      fold key.
      destruct (String.eqb (last_date (default (fresh_record uid gid (today clk)) (data !! key)))
                           (today clk)) eqn:Ht.
      * left. split; [by apply eqb_true_iff|done].
      * right. split; [by apply eqb_false_iff|].
        unfold checked_in, _save_checkin_data.
        destruct (String.eqb _ (yesterday clk)); [done|].
        by destruct (String.eqb _ "").
Qed.

(** A call that is let through and finds no record of today succeeds. *)
Lemma handle_checkin_succeeds clk uid gid data :
  period clk <> "night" ->
  last_date (default (fresh_record uid gid (today clk))
                     (data !! checkin_key uid gid)) <> today clk ->
  exists r, handle_checkin clk uid gid (Holds data) =
              (CheckedIn r, Holds (<[checkin_key uid gid := r]> data)).
Proof.
  intros Hn Ht.
  destruct (handle_checkin_cases clk uid gid (Holds data))
    as [[? _]|[(_ & ? & _)|[(_ & ? & _)|[(_ & ? & _)|(d & rec & _ & Hd & -> & H)]]]];
    try done.
  injection Hd as <-.
  destruct H as [[? _]|[_ H]]; [done|]. eauto.
Qed.

(** A successful call read a store and wrote the updated record into it. *)
Lemma handle_checkin_success clk uid gid doc r doc' :
  handle_checkin clk uid gid doc = (CheckedIn r, doc') ->
  exists data,
    doc = Holds data /\
    doc' = Holds (<[checkin_key uid gid := r]> data) /\
    r = checked_in clk (default (fresh_record uid gid (today clk))
                                (data !! checkin_key uid gid)).
Proof.
  intros H.
  destruct (handle_checkin_cases clk uid gid doc)
    as [[_ E]|[(_ & _ & E)|[(_ & _ & E)|[(_ & _ & E)|
          (data & rec & _ & -> & -> & [[_ E]|[_ E]])]]]];
    rewrite E in H; try discriminate.
  injection H as <- <-. by exists data.
Qed.

(** C1. When [handle_checkin] succeeds, the document held a store, the new
    record is written under the subject's key, and: a previous record whose
    [last_date] is yesterday's date has its [continuous_days] incremented by
    one; any other previous record, and a first check-in, gets
    [continuous_days = 1]; [total_days] grows by exactly one (from 0 when there
    was no record); [last_date] becomes today's date. *)
Theorem handle_checkin_streak clk uid gid doc r doc' :
  handle_checkin clk uid gid doc = (CheckedIn r, doc') ->
  exists data,
    doc = Holds data /\
    doc' = Holds (<[checkin_key uid gid := r]> data) /\
    (forall p, data !! checkin_key uid gid = Some p ->
       last_date p = yesterday clk -> continuous_days r = continuous_days p + 1) /\
    (forall p, data !! checkin_key uid gid = Some p ->
       last_date p <> yesterday clk -> continuous_days r = 1) /\
    (data !! checkin_key uid gid = None -> continuous_days r = 1) /\
    total_days r = from_option total_days 0 (data !! checkin_key uid gid) + 1 /\
    last_date r = today clk.
Proof.
  intros H.
  destruct (handle_checkin_success _ _ _ _ _ _ H) as (data & -> & -> & ->).
  exists data. split; [done|]. split; [done|].
  destruct (data !! checkin_key uid gid) as [p|] eqn:Hp; simpl.
  - repeat split; try done.
    + intros ? [= <-] Hy. by rewrite (proj2 (eqb_true_iff _ _) Hy).
    + intros ? [= <-] Hy. by rewrite (proj2 (eqb_false_iff _ _) Hy).
  - repeat split; try done. by destruct (yesterday clk).
Qed.

(** The night bucket of the modelled [get_time_period] is the window from
    20:00 to 05:00. *)
Lemma get_time_period_night (hour : Z) :
  get_time_period hour = "night" <-> (hour < 5 \/ 20 <= hour)%Z.
Proof.
  unfold get_time_period.
  destruct (5 <=? hour)%Z eqn:H5, (hour <? 12)%Z eqn:H12,
           (12 <=? hour)%Z eqn:H12', (hour <? 20)%Z eqn:H20; simpl;
    split; intros Hn; try discriminate Hn; try reflexivity; lia.
Qed.

(** C3. In the night bucket the call is rejected with [Blackout] whatever the
    document holds (a record of today, a corrupt file, nothing at all): the
    document is returned untouched and the blackout text is the reply. *)
Theorem handle_checkin_blackout clk uid gid doc :
  period clk = "night" ->
  handle_checkin clk uid gid doc = (Blackout, doc) /\
  reply_of clk (fst (handle_checkin clk uid gid doc)) = Some MsgBlackout.
Proof.
  intros Hn. unfold handle_checkin. rewrite Hn. done.
Qed.

Lemma record_ok_fresh uid gid d : record_ok (fresh_record uid gid d).
Proof. by split. Qed.

Lemma record_ok_checked_in clk r : record_ok r -> record_ok (checked_in clk r).
Proof.
  intros [Hc Hl]. split; simpl.
  - destruct (String.eqb _ _); lia.
  - rewrite length_app; simpl. lia.
Qed.

(** What a call does to a document that holds a store. *)
Lemma handle_checkin_store clk uid gid data :
  let key := checkin_key uid gid in
  let record := default (fresh_record uid gid (today clk)) (data !! key) in
  snd (handle_checkin clk uid gid (Holds data)) = Holds data \/
  snd (handle_checkin clk uid gid (Holds data)) =
    Holds (<[key := checked_in clk record]> data).
Proof.
  intros key record.
  destruct (handle_checkin_cases clk uid gid (Holds data))
    as [[_ E]|[(_ & ? & _)|[(_ & ? & _)|[(_ & ? & _)|
          (d & rec & _ & Hd & -> & [[_ E]|[_ E]])]]]];
    try done; rewrite E; [by left|by left|].
  injection Hd as <-. by right.
Qed.

Lemma handle_checkin_store_ok clk uid gid data :
  store_ok data ->
  exists data', snd (handle_checkin clk uid gid (Holds data)) = Holds data' /\
                store_ok data' /\ histories_extended data data'.
Proof.
  intros Hok.
  destruct (handle_checkin_store clk uid gid data) as [E|E]; rewrite E.
  - exists data. split; [done|]. split; [done|].
    intros k r Hk. by exists r.
  - eexists. split; [done|]. split.
    + intros k r. destruct (decide (k = checkin_key uid gid)) as [->|Hne].
      * rewrite lookup_insert_eq. intros [= <-].
        apply record_ok_checked_in.
        destruct (data !! checkin_key uid gid) as [p|] eqn:Hp; simpl.
        -- by apply (Hok _ _ Hp).
        -- apply record_ok_fresh.
      * rewrite lookup_insert_ne by done. apply Hok.
    + intros k r Hk. destruct (decide (k = checkin_key uid gid)) as [->|Hne].
      * rewrite lookup_insert_eq. eexists. split; [done|].
        rewrite Hk; simpl. by apply prefix_app_r.
      * rewrite lookup_insert_ne by done. by exists r.
Qed.

(** C2, as stated, fails in the blackout window: a subject whose record
    already carries today's date is answered with [Blackout], not with
    [AlreadyCheckedIn], when the call falls in the night bucket. *)
Lemma same_day_at_night_is_blackout :
  ~ (forall clk uid gid data p,
       data !! checkin_key uid gid = Some p ->
       last_date p = today clk ->
       fst (handle_checkin clk uid gid (Holds data)) = AlreadyCheckedIn).
Proof.
  intros H.
  specialize (H night_clock 1 2 {[ checkin_key 1 2 := today_record ]} today_record).
  rewrite lookup_singleton_eq in H.
  specialize (H eq_refl eq_refl). discriminate H.
Qed.

(** C2, amended. A subject whose record carries today's date is rejected and
    the document is left exactly as it was: with [AlreadyCheckedIn] outside
    the night bucket, with [Blackout] inside it. In particular, after a
    successful call, any further call for the same subject on the same date
    is rejected in this way and leaves the document as the first call wrote
    it. *)
Theorem handle_checkin_same_day clk uid gid :
  let verdict :=
    if String.eqb (period clk) "night" then Blackout else AlreadyCheckedIn in
  (forall data p,
     data !! checkin_key uid gid = Some p ->
     last_date p = today clk ->
     handle_checkin clk uid gid (Holds data) = (verdict, Holds data)) /\
  (forall clk1 doc r doc1,
     handle_checkin clk1 uid gid doc = (CheckedIn r, doc1) ->
     today clk1 = today clk ->
     handle_checkin clk uid gid doc1 = (verdict, doc1)).
Proof.
  intros verdict.
  assert (Hsame : forall data p,
     data !! checkin_key uid gid = Some p ->
     last_date p = today clk ->
     handle_checkin clk uid gid (Holds data) = (verdict, Holds data)).
  { intros data p Hp Ht. unfold verdict, handle_checkin.
    destruct (String.eqb (period clk) "night"); [done|].
    simpl. rewrite Hp; simpl.
    by rewrite (proj2 (eqb_true_iff _ _) Ht). }
  split; [exact Hsame|].
  intros clk1 doc r doc1 H1 Hd.
  destruct (handle_checkin_success _ _ _ _ _ _ H1) as (data & _ & -> & ->).
  eapply Hsame.
  - apply lookup_insert_eq.
  - done.
Qed.

(** C7. Every document reachable from the empty store holds a store whose
    records all satisfy [continuous_days <= total_days] and
    [length history = total_days]; and whatever call comes next, it leaves a
    store in which every record present before is still present with its
    old history as a prefix of the new one. *)
Theorem reachable_records_ok doc :
  reachable doc ->
  exists data,
    doc = Holds data /\
    (forall k r, data !! k = Some r ->
       continuous_days r <= total_days r /\
       Z.of_nat (length (history r)) = total_days r) /\
    (forall clk uid gid,
       exists data',
         snd (handle_checkin clk uid gid doc) = Holds data' /\
         forall k r, data !! k = Some r ->
           exists r', data' !! k = Some r' /\ history r `prefix_of` history r').
Proof.
  intros Hr.
  assert (Hinv : exists data, doc = Holds data /\ store_ok data).
  { induction Hr as [|clk uid gid doc _ (data & -> & Hok)].
    - exists ∅. split; [done|]. intros k r. by rewrite lookup_empty.
    - destruct (handle_checkin_store_ok clk uid gid data Hok) as (data' & E & Hok' & _).
      by exists data'. }
  destruct Hinv as (data & -> & Hok). exists data.
  split; [done|]. split; [exact Hok|].
  intros clk uid gid.
  destruct (handle_checkin_store_ok clk uid gid data Hok) as (data' & E & _ & Hext).
  by exists data'.
Qed.


(** C1 on a run: a subject with a two-day streak ending yesterday checks in
    this afternoon. *)
Lemma handle_checkin_streak_witness :
  handle_checkin afternoon_clock 1 2 (Holds yesterday_store) =
    (CheckedIn today_record, Holds today_store) /\
  exists data,
    Holds yesterday_store = Holds data /\
    Holds today_store = Holds (<[checkin_key 1 2 := today_record]> data) /\
    (forall p, data !! checkin_key 1 2 = Some p ->
       last_date p = yesterday afternoon_clock ->
       continuous_days today_record = continuous_days p + 1) /\
    (forall p, data !! checkin_key 1 2 = Some p ->
       last_date p <> yesterday afternoon_clock ->
       continuous_days today_record = 1) /\
    (data !! checkin_key 1 2 = None -> continuous_days today_record = 1) /\
    total_days today_record =
      from_option total_days 0 (data !! checkin_key 1 2) + 1 /\
    last_date today_record = today afternoon_clock.
Proof.
  assert (Hrun : handle_checkin afternoon_clock 1 2 (Holds yesterday_store) =
                 (CheckedIn today_record, Holds today_store)).
  { unfold handle_checkin, yesterday_store; simpl.
    rewrite lookup_singleton_eq. reflexivity. }
  split; [exact Hrun|].
  exact (handle_checkin_streak afternoon_clock 1 2 (Holds yesterday_store)
           today_record (Holds today_store) Hrun).
Defined.

(** C2 (amended) on a run: the same subject asks again in the afternoon. *)
Lemma handle_checkin_same_day_witness :
  today_store !! checkin_key 1 2 = Some today_record /\
  last_date today_record = today afternoon_clock /\
  handle_checkin afternoon_clock 1 2 (Holds today_store) =
    (AlreadyCheckedIn, Holds today_store).
Proof.
  assert (Hlook : today_store !! checkin_key 1 2 = Some today_record).
  { unfold today_store. apply lookup_insert_eq. }
  split; [exact Hlook|]. split; [reflexivity|].
  exact (proj1 (handle_checkin_same_day afternoon_clock 1 2)
           today_store today_record Hlook eq_refl).
Defined.

(** C3 on a run: at night even a subject already checked in today is told
    about the blackout. *)
Lemma handle_checkin_blackout_witness :
  period night_clock = "night" /\
  handle_checkin night_clock 1 2 (Holds today_store) =
    (Blackout, Holds today_store) /\
  reply_of night_clock (fst (handle_checkin night_clock 1 2 (Holds today_store))) =
    Some MsgBlackout.
Proof.
  split; [reflexivity|].
  exact (handle_checkin_blackout night_clock 1 2 (Holds today_store) eq_refl).
Defined.

(** C7 on a run: the document after the first check-in ever. *)
Lemma reachable_records_ok_witness :
  reachable (snd (handle_checkin afternoon_clock 1 2 (Holds ∅))) /\
  exists data,
    snd (handle_checkin afternoon_clock 1 2 (Holds ∅)) = Holds data /\
    (forall k r, data !! k = Some r ->
       continuous_days r <= total_days r /\
       Z.of_nat (length (history r)) = total_days r) /\
    (forall clk uid gid,
       exists data',
         snd (handle_checkin clk uid gid
                (snd (handle_checkin afternoon_clock 1 2 (Holds ∅)))) = Holds data' /\
         forall k r, data !! k = Some r ->
           exists r', data' !! k = Some r' /\ history r `prefix_of` history r').
Proof.
  assert (Hr : reachable (snd (handle_checkin afternoon_clock 1 2 (Holds ∅)))).
  { apply reachable_step, reachable_init. }
  split; [exact Hr|].
  exact (reachable_records_ok _ Hr).
Defined.

End CheckinSpec.

(** ** The weighted draw *)

Module DivinationSpec.
Import Divination.
Local Open Scope nat_scope.

(** Only three names have an entry in [adjustments]. *)
Lemma adjustments_lookup c :
  dict_get adjustments c = None \/
  dict_get adjustments c = dict_get adjustments "白羊座" \/
  dict_get adjustments c = dict_get adjustments "摩羯座" \/
  dict_get adjustments c = dict_get adjustments "双鱼座".
Proof.
  unfold adjustments. cbn [dict_get].
  destruct (String.eqb c "白羊座") eqn:E1; [right; left; reflexivity|].
  destruct (String.eqb c "摩羯座") eqn:E2; [right; right; left; reflexivity|].
  destruct (String.eqb c "双鱼座") eqn:E3; [right; right; right; reflexivity|].
  by left.
Qed.

(** Reduce a statement about every constellation to the four tables that
    [adjustments] can answer with. *)
Ltac by_adjustment c :=
  destruct (adjustments_lookup c) as [E|[E|[E|E]]]; rewrite E; clear E.



(** The rational reading of floats on two dyadic values. *)
Example exact_sum_dyadic :
  exists q, exact_sum [0.5%float; 0.25%float; (-0.125)%float] = Some q /\ (q == 5 # 8)%Q.
Proof. eexists. split; reflexivity. Qed.

(** The adjustment step computes the table the specification describes. *)
Lemma adjusted_weights_spec c :
  adjusted_weights adjustments c = Ok (spec_adjusted_table c).
Proof.
  unfold adjusted_weights, spec_adjusted_table, spec_adjusted.
  by_adjustment c; reflexivity.
Qed.


Lemma final_weights_spec v c :
  final_weights_with v adjustments c = Ok (spec_distribution v c).
Proof.
  unfold final_weights_with. rewrite adjusted_weights_spec. simpl.
  unfold spec_distribution, spec_adjusted_table, spec_adjusted.
  destruct v; by_adjustment c; vm_compute; reflexivity.
Qed.


(** The binary search stays inside the interval it is given. *)
Lemma bisect_loop_bounds fuel a x lo hi :
  lo <= hi -> lo <= bisect_loop fuel a x lo hi <= hi.
Proof.
  revert lo hi. induction fuel as [|fuel IH]; intros lo hi Hle; cbn [bisect_loop]; [lia|].
  destruct (lo <? hi) eqn:Hlt; [|lia].
  apply Nat.ltb_lt in Hlt.
  assert (Hmid : lo <= (lo + hi) / 2 < hi).
  { split.
    - apply Nat.div_le_lower_bound; lia.
    - apply Nat.Div0.div_lt_upper_bound; lia. }
  destruct (x <? nth ((lo + hi) / 2) a nan)%float.
  - specialize (IH lo ((lo + hi) / 2)). lia.
  - specialize (IH ((lo + hi) / 2 + 1) hi). lia.
Qed.

(** With [hi - lo] rounds the search has run to its end: more rounds change
    nothing. *)
Lemma bisect_loop_enough fuel1 fuel2 a x lo hi :
  hi - lo <= fuel1 -> hi - lo <= fuel2 ->
  bisect_loop fuel1 a x lo hi = bisect_loop fuel2 a x lo hi.
Proof.
  revert fuel2 lo hi.
  induction fuel1 as [|fuel1 IH]; intros fuel2 lo hi H1 H2.
  - destruct fuel2 as [|fuel2]; [done|]. cbn [bisect_loop].
    destruct (lo <? hi) eqn:Hlt; [|done]. apply Nat.ltb_lt in Hlt. lia.
  - cbn [bisect_loop]. destruct (lo <? hi) eqn:Hlt.
    + destruct fuel2 as [|fuel2]; [apply Nat.ltb_lt in Hlt; lia|].
      cbn [bisect_loop]. rewrite Hlt. apply Nat.ltb_lt in Hlt.
      assert (Hmid : lo <= (lo + hi) / 2 < hi).
      { split.
        - apply Nat.div_le_lower_bound; lia.
        - apply Nat.Div0.div_lt_upper_bound; lia. }
      destruct (x <? nth ((lo + hi) / 2) a nan)%float; apply IH; lia.
    + destruct fuel2 as [|fuel2]; [done|]. cbn [bisect_loop]. by rewrite Hlt.
Qed.

Lemma bisect_loop_fuel fuel a x lo hi :
  hi - lo <= fuel -> bisect_loop fuel a x lo hi = bisect a x lo hi.
Proof. intros Hf. unfold bisect. by apply bisect_loop_enough. Qed.

Lemma bisect_bounds a x hi : bisect a x 0 hi <= hi.
Proof. unfold bisect. pose proof (bisect_loop_bounds (hi - 0) a x 0 hi). lia. Qed.

Section Draws.
Context {G : Type} `{RandomSource G}.

(** Once the checks pass, [choices] reads one float and returns a member of
    the population. *)
Lemma choices_ok {A : Type} (population : list A) (weights : list float) (g : G) :
  population <> [] ->
  choices_accepts (length population) weights = true ->
  exists a, choices population weights g = (Ok a, snd (rs_random g)) /\ a ∈ population.
Proof.
  intros Hne Hacc. unfold choices_accepts in Hacc.
  apply andb_prop in Hacc as [Hlen Hlast].
  unfold choices. rewrite Hlen. simpl.
  destruct (last (accumulate weights)) as [top|]; [|done].
  apply andb_prop in Hlast as [Hpos Hfin].
  apply negb_true_iff in Hpos. rewrite Hpos, Hfin. simpl.
  destruct (rs_random g) as [x g']. simpl.
  set (i := bisect _ _ _ _).
  assert (Hi : i < length population).
  { pose proof (bisect_bounds (accumulate weights) (x * (top + 0))%float
                  (length population - 1)) as Hb.
    fold i in Hb. destruct population; [done|]. simpl in *. lia. }
  destruct (nth_error population i) as [a|] eqn:Ha.
  - exists a. split; [done|]. apply list_elem_of_In. by eapply nth_error_In.
  - apply nth_error_None in Ha. lia.
Qed.

(** [choice] on a non-empty sequence reads one index and returns a member. *)
Lemma choice_ok {A : Type} (seq : list A) (g : G) :
  seq <> [] ->
  exists a, choice seq g = (Ok a, snd (rs_randbelow (length seq) g)) /\ a ∈ seq.
Proof.
  intros Hne. unfold choice. destruct seq as [|a0 seq']; [done|].
  pose proof (rs_randbelow_lt (length (a0 :: seq')) g) as Hlt.
  destruct (rs_randbelow (length (a0 :: seq')) g) as [i g']. simpl in Hlt |- *.
  destruct (nth_error (a0 :: seq') i) as [a|] eqn:Ha.
  - exists a. split; [done|]. apply list_elem_of_In. by eapply nth_error_In.
  - apply nth_error_None in Ha. simpl in Ha. lia.
Qed.

End Draws.

(** Two generators that hand out the same float and then the same indices
    lead [draw_from] to the same result, whatever else their states hold. *)
Lemma draw_from_same_values {G1 G2 : Type} `{RandomSource G1} `{RandomSource G2}
    lucky_data final_weights (g1 : G1) (g2 : G2) :
  fst (rs_random g1) = fst (rs_random g2) ->
  (forall n, fst (rs_randbelow n (snd (rs_random g1))) =
             fst (rs_randbelow n (snd (rs_random g2)))) ->
  fst (draw_from lucky_data final_weights g1) =
  fst (draw_from lucky_data final_weights g2).
Proof.
  intros Hx Hi. unfold draw_from, draw_bind, draw_lift, draw_ret, choices.
  destruct (negb _); [done|].
  destruct (last _) as [top|]; [|done].
  destruct (_ <=? 0)%float; [done|].
  destruct (negb _); [done|].
  destruct (rs_random g1) as [x1 g1'], (rs_random g2) as [x2 g2'].
  simpl in Hx, Hi. subst x2.
  destruct (nth_error _ _) as [level|]; [|done].
  destruct (dict_item lucky_data level) as [details|]; [|done].
  unfold choice. destruct details as [|d ds]; [done|].
  specialize (Hi (length (d :: ds))).
  destruct (rs_randbelow _ g1') as [i1 g1''], (rs_randbelow _ g2') as [i2 g2''].
  simpl in Hi. subst i2.
  by destruct (nth_error _ _).
Qed.

(** Every level of the table has its list of details, none of them empty. *)
Lemma lucky_data_complete v c level :
  level ∈ map fst (spec_distribution v c) ->
  exists details, dict_item _load_lucky_data level = Ok details /\ details <> [].
Proof.
  unfold spec_distribution, spec_adjusted_table. rewrite !map_map. simpl.
  intros Hin. repeat (apply elem_of_cons in Hin as [->|Hin]); try (eexists; split; [reflexivity|done]).
  by apply elem_of_nil in Hin.
Qed.

Lemma spec_distribution_accepted v c :
  choices_accepts (length (map fst (spec_distribution v c)))
                  (map snd (spec_distribution v c)) = true.
Proof.
  unfold spec_distribution, spec_adjusted_table, spec_adjusted.
  destruct v; by_adjustment c; vm_compute; reflexivity.
Qed.

(** The draw always ends with a level and one of its details. *)
Lemma generate_luck_returns {G : Type} `{RandomSource G} v c (g : G) :
  exists level detail, fst (_generate_luck v c g) = Ok (level, detail).
Proof.
  unfold _generate_luck, _generate_luck_with, draw_bind, draw_lift.
  rewrite final_weights_spec. unfold draw_from, draw_bind, draw_lift, draw_ret.
  destruct (choices_ok (map fst (spec_distribution v c))
              (map snd (spec_distribution v c)) g) as (level & -> & Hin).
  { by destruct v. }
  { apply spec_distribution_accepted. }
  destruct (lucky_data_complete v c level Hin) as (details & -> & Hne).
  destruct (choice_ok details (snd (rs_random g)) Hne) as (detail & -> & _).
  by exists level, detail.
Qed.







(** The tier the deltas push furthest down: the fifth tier of 摩羯座, at
    0.05 - 0.05, is exactly zero. *)
Example lowest_adjusted_weight :
  adjusted_weights adjustments "摩羯座" =
    Ok [ ("大吉", 0.15); ("中吉", 0.25 + 0.1); ("小吉", 0.35); ("凶", 0.2);
         ("大凶", 0) ]%float.
Proof. reflexivity. Qed.

(** The replay of the specification's test: on the base table the float
    0.02 selects the first tier and 0.5 the third. *)
Example replay_first_tier :
  fst (_generate_luck Sequential "金牛座" (mkScript [0.02%float] [0])) =
    Ok ("大吉", "今天鸿运当头，宜大胆行动").
Proof. reflexivity. Qed.

Example replay_third_tier :
  fst (_generate_luck Sequential "金牛座" (mkScript [0.5%float] [1])) =
    Ok ("小吉", "注意细节处理，避免小失误").
Proof. reflexivity. Qed.

(** C8, as stated, fails: the draw has no parameter for a random source.
    A caller who passes one, here a generator that replays 0.5 and the
    index 1, gets [TypeError] and no pair, and the generator of the module
    is not read. *)
Lemma injected_source_is_refused :
  ~ (forall (v : PySum) (c : string) (source module_random : Script),
       exists drawn,
         fst (DivinationExt.call_generate_luck v c [ source ] [] module_random) =
           Done drawn).
Proof.
  intros Hclaim.
  destruct (Hclaim Sequential "白羊座" (mkScript [0.5%float] [1])
              (mkScript [0.02%float] [0])) as [drawn Hdrawn].
  discriminate Hdrawn.
Qed.

(** C8, amended. A call that passes a source, by position or by name, ends
    with [TypeError] before anything is read; the call with the
    constellation alone reads the generator of the [random] module: one
    float for the level, then one index for the detail. It always returns a
    level and a detail, and these are a function of the constellation and
    of the values read: two generators (of any kind) that hand out the same
    float and then the same indices give the same pair. *)
Theorem generate_luck_replay {G1 G2 : Type} `{RandomSource G1} `{RandomSource G2}
    (S : Type) (v : PySum) (c : string) (g1 : G1) (g2 : G2) :
  fst (rs_random g1) = fst (rs_random g2) ->
  (forall n, fst (rs_randbelow n (snd (rs_random g1))) =
             fst (rs_randbelow n (snd (rs_random g2)))) ->
  fst (_generate_luck v c g1) = fst (_generate_luck v c g2) /\
  (exists level detail, fst (_generate_luck v c g1) = Ok (level, detail)) /\
  fst (DivinationExt.call_generate_luck (S := S) v c [] [] g1) =
    fst (DivinationExt.call_generate_luck (S := S) v c [] [] g2) /\
  (forall (sources : list S) (named : list (string * S)),
     sources <> [] \/ named <> [] ->
     DivinationExt.call_generate_luck v c sources named g1 = (Fails TypeError, g1)).
Proof.
  intros Hx Hi.
  assert (Hsame : fst (_generate_luck v c g1) = fst (_generate_luck v c g2)).
  { unfold _generate_luck, _generate_luck_with, draw_bind, draw_lift.
    rewrite final_weights_spec.
    by apply draw_from_same_values. }
  split; [exact Hsame|]. split; [apply generate_luck_returns|]. split.
  - unfold DivinationExt.call_generate_luck.
    destruct (_generate_luck v c g1) as [r1 g1'], (_generate_luck v c g2) as [r2 g2'].
    simpl in Hsame. subst r2. by destruct r1.
  - intros sources named Hextra. unfold DivinationExt.call_generate_luck.
    destruct sources as [|source sources]; [|done].
    destruct named as [|name named]; [|done].
    by destruct Hextra.
Qed.

(** C8 (amended) on a run: two scripts that agree on the first float and
    the first index, and on nothing after. *)
Lemma generate_luck_replay_witness :
  let g1 := mkScript [0.5%float] [1; 7] in
  let g2 := mkScript [0.5%float; 0.9%float] [1; 2] in
  fst (rs_random g1) = fst (rs_random g2) /\
  (forall n, fst (rs_randbelow n (snd (rs_random g1))) =
             fst (rs_randbelow n (snd (rs_random g2)))) /\
  fst (_generate_luck Sequential "双鱼座" g1) =
    fst (_generate_luck Sequential "双鱼座" g2) /\
  (exists level detail,
     fst (_generate_luck Sequential "双鱼座" g1) = Ok (level, detail)) /\
  fst (DivinationExt.call_generate_luck (S := Script) Sequential "双鱼座" [] [] g1) =
    fst (DivinationExt.call_generate_luck (S := Script) Sequential "双鱼座" [] [] g2) /\
  (forall (sources : list Script) (named : list (string * Script)),
     sources <> [] \/ named <> [] ->
     DivinationExt.call_generate_luck Sequential "双鱼座" sources named g1 =
       (Fails TypeError, g1)).
Proof.
  intros g1 g2.
  split; [reflexivity|]. split; [intros n; reflexivity|].
  exact (generate_luck_replay Script Sequential "双鱼座" g1 g2 eq_refl
           (fun n => eq_refl)).
Defined.

End DivinationSpec.

(** ** Loaders and the blacklist *)

Module ConfigSpec.
Import Config.

(** C6. [ConfigManager._load_json] answers [{}] for a missing and for a
    corrupt file of every collection (also where the collection is created
    as a list, or with its [users] and [words] keys). The check-in loader
    has no such recovery: on a missing or corrupt document it raises, and
    outside the night bucket [handle_checkin] ends with that exception. *)
Theorem checkin_loader_raises (filename : string) :
  _load_json (fun _ => Missing) filename = Ok (JDict []) /\
  _load_json (fun _ => Corrupt) filename = Ok (JDict []) /\
  dict_get required_files "blocked_words.json" = Some (JList []) /\
  Checkin._load_checkin_data Missing = Raise FileNotFoundError /\
  Checkin._load_checkin_data Corrupt = Raise JSONDecodeError /\
  Checkin.handle_checkin Checkin.afternoon_clock 1 2 Corrupt =
    (Checkin.Raised JSONDecodeError, Corrupt) /\
  Checkin.handle_checkin Checkin.afternoon_clock 1 2 Missing =
    (Checkin.Raised FileNotFoundError, Missing).
Proof. repeat split. Qed.

Lemma py_remove_subset x u l : x ∈ py_remove u l -> x ∈ l.
Proof.
  induction l as [|y l IH]; simpl; [done|].
  case_bool_decide.
  - intros Hin. by apply elem_of_cons; right.
  - intros [->|Hin]%elem_of_cons.
    + by apply elem_of_cons; left.
    + apply elem_of_cons; right. by apply IH.
Qed.

Lemma py_remove_NoDup u l : NoDup l -> NoDup (py_remove u l).
Proof.
  induction 1 as [|y l Hy Hnd IH]; simpl; [constructor|].
  case_bool_decide; [done|].
  constructor; [|done]. intros Hin. by apply Hy, (py_remove_subset _ u).
Qed.

(** In a list without repetition, removing the first occurrence removes
    the element. *)
Lemma py_remove_gone u l : NoDup l -> u ∉ py_remove u l.
Proof.
  induction 1 as [|y l Hy Hnd IH]; simpl; [apply not_elem_of_nil|].
  case_bool_decide as Hu; [by subst|].
  intros [->|Hin]%elem_of_cons; [done|by apply IH].
Qed.

Lemma add_to_blacklist_NoDup u m :
  NoDup (users (blacklist m)) -> NoDup (users (blacklist (add_to_blacklist u m))).
Proof.
  intros Hnd. unfold add_to_blacklist.
  case_bool_decide as Hin; simpl; [done|].
  apply NoDup_app. split; [done|]. split; [|apply NoDup_singleton].
  intros x Hx [->|Hnil%elem_of_nil]%elem_of_cons; done.
Qed.

Lemma remove_from_blacklist_NoDup u m :
  NoDup (users (blacklist m)) ->
  NoDup (users (blacklist (remove_from_blacklist u m))).
Proof.
  intros Hnd. unfold remove_from_blacklist.
  case_bool_decide; simpl; [by apply py_remove_NoDup|done].
Qed.

Lemma manager_reachable_NoDup m :
  manager_reachable m -> NoDup (users (blacklist m)).
Proof.
  induction 1 as [|u m _ IH|u m _ IH].
  - constructor.
  - by apply add_to_blacklist_NoDup.
  - by apply remove_from_blacklist_NoDup.
Qed.

Lemma add_to_blacklist_member u m : is_blacklisted u (add_to_blacklist u m) = true.
Proof.
  unfold add_to_blacklist.
  destruct (bool_decide (u ∈ users (blacklist m))) eqn:Hin; simpl.
  - done.
  - apply bool_decide_eq_true; simpl.
    apply elem_of_app; right. by apply elem_of_cons; left.
Qed.

Lemma add_to_blacklist_idempotent u m :
  add_to_blacklist u (add_to_blacklist u m) = add_to_blacklist u m.
Proof.
  pose proof (add_to_blacklist_member u m) as Hin.
  unfold is_blacklisted in Hin.
  unfold add_to_blacklist at 1. by rewrite Hin.
Qed.

(** C10, as stated, fails: the blacklist is what blacklist.json holds, and
    a list that names user 5 twice keeps 5 blacklisted after
    [remove_from_blacklist(5)], which takes one occurrence away. *)
Lemma repeated_id_stays_blacklisted :
  ~ (forall (m : Manager) (u : Z),
       is_blacklisted u (add_to_blacklist u m) = true /\
       is_blacklisted u (remove_from_blacklist u m) = false /\
       add_to_blacklist u (add_to_blacklist u m) = add_to_blacklist u m /\
       NoDup (users (blacklist m))).
Proof.
  intros Hclaim.
  destruct (Hclaim
              {| blacklist := {| users := [5; 7; 5]; words := [ "spam" ] |};
                 blacklist_json := Holds {| users := [5; 7; 5]; words := [ "spam" ] |} |}
              5) as (_ & Hgone & _).
  vm_compute in Hgone. discriminate Hgone.
Qed.

(** C10, amended. In every blacklist state, whatever was read from the
    file, a user just added is blacklisted and adding a second time changes
    nothing (neither the list nor the file). Where the list of users holds
    no id twice, a user just removed is not blacklisted, and the list holds
    no id twice after either operation; every state the manager reaches
    from the blacklist it creates is of that kind. *)
Theorem blacklist_membership (m : Manager) (u : Z) :
  is_blacklisted u (add_to_blacklist u m) = true /\
  add_to_blacklist u (add_to_blacklist u m) = add_to_blacklist u m /\
  (NoDup (users (blacklist m)) ->
   is_blacklisted u (remove_from_blacklist u m) = false /\
   NoDup (users (blacklist (add_to_blacklist u m))) /\
   NoDup (users (blacklist (remove_from_blacklist u m)))) /\
  (manager_reachable m -> NoDup (users (blacklist m))).
Proof.
  split; [apply add_to_blacklist_member|].
  split; [apply add_to_blacklist_idempotent|].
  split; [|apply manager_reachable_NoDup].
  intros Hnd.
  split; [|split; [by apply add_to_blacklist_NoDup|by apply remove_from_blacklist_NoDup]].
  unfold remove_from_blacklist.
  destruct (bool_decide (u ∈ users (blacklist m))) eqn:Hin.
  - apply bool_decide_eq_false; simpl. by apply py_remove_gone.
  - done.
Qed.

(** C10 (amended) on a run: a blacklist read from a file that lists two
    users and a word, none of them twice. *)
Lemma blacklist_membership_witness :
  let m := {| blacklist := {| users := [5; 7]; words := [ "spam" ] |};
              blacklist_json := Holds {| users := [5; 7]; words := [ "spam" ] |} |} in
  NoDup (users (blacklist m)) /\
  is_blacklisted 5 (add_to_blacklist 5 m) = true /\
  add_to_blacklist 5 (add_to_blacklist 5 m) = add_to_blacklist 5 m /\
  is_blacklisted 5 (remove_from_blacklist 5 m) = false /\
  NoDup (users (blacklist (add_to_blacklist 5 m))) /\
  NoDup (users (blacklist (remove_from_blacklist 5 m))).
Proof.
  intros m.
  assert (Hnd : NoDup (users (blacklist m))).
  { apply (bool_decide_unpack _). vm_compute. exact I. }
  split; [exact Hnd|].
  destruct (blacklist_membership m 5) as (Hadd & Hidem & Hrest & _).
  split; [exact Hadd|]. split; [exact Hidem|]. exact (Hrest Hnd).
Defined.

End ConfigSpec.

(** ** Admin commands *)

Module DeveloperSpec.
Import Config Developer.

(** C9. A sender who is neither the master nor an agent gets nothing from
    the admin handlers: [check_developer_commands] returns [False], sends
    nothing and leaves the configuration alone, whatever the text of the
    message (so its answer is the same for any two texts), and
    [handle_developer] sends nothing. *)
Theorem non_admin_gets_no_response `{StrLib}
    (cfg : PluginConfig) (event : MessageEvent) :
  is_admin cfg (user_id event) = false ->
  check_developer_commands cfg event = (Ok false, [], cfg) /\
  (forall text,
     check_developer_commands cfg (with_message event text) =
     check_developer_commands cfg event) /\
  handle_developer cfg (user_id event) = [].
Proof.
  intros Hadmin.
  assert (Hnone : forall text,
            check_developer_commands cfg (with_message event text) = (Ok false, [], cfg)).
  { intros text. unfold check_developer_commands, with_message; simpl.
    rewrite Hadmin. by destruct (kind event). }
  assert (Hevent : check_developer_commands cfg event = (Ok false, [], cfg)).
  { unfold check_developer_commands. rewrite Hadmin. by destruct (kind event). }
  split; [done|]. split.
  - intros text. by rewrite Hnone, Hevent.
  - unfold handle_developer. by rewrite Hadmin.
Qed.

(** The same text from the master switches the mode on and is answered. *)
Example master_is_answered :
  check_developer_commands sample_config (mkEvent GroupMessageEvent 10001 " 观星 ") =
    (Ok true, [ Send "知道了，小生眼观六路，耳听八方。" ],
     set_group_approve_mode sample_config true).
Proof. reflexivity. Qed.

Example agent_limit :
  check_developer_commands sample_config (mkEvent PrivateMessageEvent 10002 "参谋 10003") =
    (Ok true, [ Send "啊……副店长么?小生记住了。" ],
     set_agents sample_config [10002; 10003]).
Proof. reflexivity. Qed.

(** C9 on a run: a stranger sends the text that switches on join-request
    handling for an admin. *)
Lemma non_admin_gets_no_response_witness :
  let event := mkEvent GroupMessageEvent 20000 "观星" in
  is_admin sample_config (user_id event) = false /\
  check_developer_commands sample_config event = (Ok false, [], sample_config) /\
  (forall text,
     check_developer_commands sample_config (with_message event text) =
     check_developer_commands sample_config event) /\
  handle_developer sample_config (user_id event) = [].
Proof.
  intros event. split; [reflexivity|].
  exact (non_admin_gets_no_response sample_config event eq_refl).
Defined.

End DeveloperSpec.

(** ** More on the check-in handler *)

Module CheckinExtSpec.
Import Checkin CheckinExt.
Local Open Scope list_scope.

(** No underscore occurs in a string. *)
Fixpoint underscore_free (s : string) : Prop :=
  match s with
  | EmptyString => True
  | String a s' => a <> "_"%char /\ underscore_free s'
  end.

Lemma append_nil_l (s : string) : "" +:+ s = s.
Proof. reflexivity. Qed.

Lemma append_cons (c : ascii) (s t : string) : String c s +:+ t = String c (s +:+ t).
Proof. reflexivity. Qed.

Lemma pretty_N_go_underscore_free (x : N) (s : string) :
  underscore_free s -> underscore_free (pretty_N_go x s).
Proof.
  revert s. induction (N.lt_wf_0 x) as [x _ IH]; intros s Hs.
  destruct (decide (x = 0)%N) as [->|Hx]; [by rewrite pretty_N_go_0|].
  rewrite pretty_N_go_step by lia.
  apply IH; [apply N.div_lt; lia|].
  split; [|done]. unfold pretty_N_char. by repeat case_match.
Qed.

Lemma pretty_Z_underscore_free (z : Z) : underscore_free (pretty z).
Proof.
  assert (HN : forall n : N, underscore_free (pretty n)).
  { intros n. unfold pretty, pretty_N. case_decide; [by repeat split|].
    by apply pretty_N_go_underscore_free. }
  destruct z as [|p|p]; unfold pretty, pretty_Z.
  - by repeat split.
  - apply HN.
  - rewrite append_cons, append_nil_l. split; [done|]. apply HN.
Qed.

(** Two strings cut at their first underscore agree part by part. *)
Lemma underscore_split (a a' b b' : string) :
  underscore_free a -> underscore_free a' ->
  a +:+ "_" +:+ b = a' +:+ "_" +:+ b' -> a = a' /\ b = b'.
Proof.
  revert a'. induction a as [|c a IH]; intros [|c' a'] Ha Ha';
    rewrite ?append_nil_l, ?append_cons, ?append_nil_l.
  - by intros [= ->].
  - intros [= <- _]. by destruct Ha'.
  - intros [= -> _]. by destruct Ha.
  - intros [= -> Hrest]. destruct Ha as [_ Ha], Ha' as [_ Ha'].
    destruct (IH a' Ha Ha' Hrest) as [-> ->]. done.
Qed.

Lemma checkin_key_parts (uid gid uid' gid' : Z) :
  checkin_key uid gid = checkin_key uid' gid' -> uid = uid' /\ gid = gid'.
Proof.
  unfold checkin_key. intros Hkey.
  apply underscore_split in Hkey as [Hu Hg];
    [|apply pretty_Z_underscore_free..].
  split; by apply (inj pretty).
Qed.

(** X1. Two subjects never share a key: [f"{user_id}_{group_id}"] determines
    both numbers. *)
Theorem checkin_key_inj (uid gid uid' gid' : Z) :
  checkin_key uid gid = checkin_key uid' gid' -> uid = uid' /\ gid = gid'.
Proof.
  apply checkin_key_parts.
Qed.

Lemma checkin_key_inj_witness :
  checkin_key 12 (-3) = checkin_key 12 (-3) /\ (12 = 12 /\ -3 = -3).
Proof.
  split; [reflexivity|]. exact (checkin_key_inj 12 (-3) 12 (-3) eq_refl).
Defined.

(** X2. A call for one subject leaves every other subject alone: whatever
    the call does, [_get_user_record] for a different (user, group) pair
    answers as before; and after a successful call it answers with the new
    record for the subject itself. *)
Theorem handle_checkin_other_subject clk uid gid uid' gid' data :
  (uid', gid') <> (uid, gid) ->
  _get_user_record uid' gid' (snd (handle_checkin clk uid gid (Holds data))) =
    _get_user_record uid' gid' (Holds data) /\
  (forall r doc',
     handle_checkin clk uid gid (Holds data) = (CheckedIn r, doc') ->
     _get_user_record uid gid doc' = Ok (Some r)).
Proof.
  intros Hne. split.
  - destruct (CheckinSpec.handle_checkin_store clk uid gid data) as [-> | ->];
      [done|].
    unfold _get_user_record; simpl. f_equal.
    apply lookup_insert_ne. intros Hkey.
    apply checkin_key_parts in Hkey as [-> ->]. done.
  - intros r doc' Hrun.
    destruct (CheckinSpec.handle_checkin_success _ _ _ _ _ _ Hrun)
      as (data0 & _ & -> & _).
    unfold _get_user_record; simpl. f_equal. apply lookup_insert_eq.
Qed.

Lemma handle_checkin_other_subject_witness :
  (7, 2) <> (1, 2) /\
  _get_user_record 7 2
    (snd (handle_checkin afternoon_clock 1 2 (Holds yesterday_store))) =
    _get_user_record 7 2 (Holds yesterday_store) /\
  (forall r doc',
     handle_checkin afternoon_clock 1 2 (Holds yesterday_store) = (CheckedIn r, doc') ->
     _get_user_record 1 2 doc' = Ok (Some r)).
Proof.
  assert (Hne : (7, 2) <> (1, 2)) by discriminate.
  split; [exact Hne|].
  exact (handle_checkin_other_subject afternoon_clock 1 2 7 2 yesterday_store Hne).
Defined.

Lemma record_shape_checked_in clk uid gid (prev : option CheckinRecord) :
  (forall p, prev = Some p -> record_shape (checkin_key uid gid) p) ->
  record_shape (checkin_key uid gid)
    (checked_in clk (default (fresh_record uid gid (today clk)) prev)).
Proof.
  intros Hprev. destruct prev as [p|]; simpl.
  - destruct (Hprev p eq_refl)
      as (Hkey & Hc & Ht & (first & rest & Hh & Hf) & (init & final & Hh' & Hl)).
    unfold record_shape; simpl. split; [done|].
    split; [destruct (String.eqb _ _); lia|]. split; [lia|]. split.
    + exists first, (rest ++ [entry_of clk]). by rewrite Hh.
    + by exists (history p), (entry_of clk).
  - unfold record_shape; simpl. split; [done|].
    split; [destruct (yesterday clk); simpl; lia|]. split; [lia|]. split.
    + by exists (entry_of clk), [].
    + by exists [], (entry_of clk).
Qed.

(** X3. Every record in a store reachable from the empty one is filed under
    the key of its own [user_id] and [group_id], counts at least one day in
    [total_days] and in [continuous_days], has a history that is not empty,
    and carries in [first_date] and [last_date] the dates of the first and
    of the last entry of that history. *)
Theorem stored_records_shape doc :
  reachable doc ->
  exists data, doc = Holds data /\
    forall key r, data !! key = Some r -> record_shape key r.
Proof.
  induction 1 as [|clk uid gid doc _ (data & -> & IH)].
  - exists ∅. split; [done|]. intros key r. by rewrite lookup_empty.
  - destruct (CheckinSpec.handle_checkin_store clk uid gid data) as [-> | ->].
    + by exists data.
    + eexists. split; [done|]. intros key r.
      destruct (decide (key = checkin_key uid gid)) as [->|Hne].
      * rewrite lookup_insert_eq. intros [= <-].
        apply record_shape_checked_in. intros p Hp. by apply IH.
      * rewrite lookup_insert_ne by done. apply IH.
Qed.

Lemma stored_records_shape_witness :
  reachable (snd (handle_checkin afternoon_clock 1 2 (Holds ∅))) /\
  exists data,
    snd (handle_checkin afternoon_clock 1 2 (Holds ∅)) = Holds data /\
    forall key r, data !! key = Some r -> record_shape key r.
Proof.
  assert (Hr : reachable (snd (handle_checkin afternoon_clock 1 2 (Holds ∅)))).
  { apply reachable_step, reachable_init. }
  split; [exact Hr|]. exact (stored_records_shape _ Hr).
Defined.

(** A run of consecutive days on top of an existing record. *)
Lemma checkins_day_after_day clks uid gid data p :
  data !! checkin_key uid gid = Some p ->
  day_after_day (last_date p) clks ->
  exists data' r,
    checkins clks uid gid (Holds data) = Holds data' /\
    data' !! checkin_key uid gid = Some r /\
    continuous_days r = continuous_days p + Z.of_nat (length clks) /\
    total_days r = total_days p + Z.of_nat (length clks) /\
    history r = history p ++ map entry_of clks /\
    first_date r = first_date p.
Proof.
  revert data p. induction clks as [|clk clks IH]; intros data p Hp Hdays.
  - exists data, p. simpl. rewrite app_nil_r. repeat split; try done; lia.
  - destruct Hdays as (Hn & Hy & Ht & Hdays). simpl checkins.
    assert (Hrun : snd (handle_checkin clk uid gid (Holds data)) =
                   Holds (<[checkin_key uid gid := checked_in clk p]> data)).
    { unfold handle_checkin.
      rewrite (proj2 (CheckinSpec.eqb_false_iff _ _) Hn). simpl. rewrite Hp. simpl.
      rewrite (proj2 (CheckinSpec.eqb_false_iff _ _)) by done.
      rewrite (proj2 (CheckinSpec.eqb_true_iff _ _)) by done.
      unfold checked_in.
      by rewrite (proj2 (CheckinSpec.eqb_true_iff (last_date p) _)). }
    rewrite Hrun.
    destruct (IH (<[checkin_key uid gid := checked_in clk p]> data) (checked_in clk p))
      as (data' & r & Hrest & Hr & Hc & Htot & Hh & Hf).
    { apply lookup_insert_eq. }
    { done. }
    exists data', r. split; [done|]. split; [done|].
    simpl in Hc, Htot, Hh, Hf.
    rewrite (proj2 (CheckinSpec.eqb_true_iff (last_date p) _)) in Hc by done.
    repeat split.
    + rewrite Hc. simpl length. lia.
    + rewrite Htot. simpl length. lia.
    + rewrite Hh, <- app_assoc. done.
    + done.
Qed.

(** The call of a subject that has no record yet. *)
Lemma handle_checkin_fresh clk uid gid data :
  data !! checkin_key uid gid = None ->
  period clk <> "night" ->
  today clk <> "" ->
  handle_checkin clk uid gid (Holds data) =
    (CheckedIn (checked_in clk (fresh_record uid gid (today clk))),
     Holds (<[checkin_key uid gid := checked_in clk (fresh_record uid gid (today clk))]> data)).
Proof.
  intros Hnone Hn Ht.
  destruct (CheckinSpec.handle_checkin_cases clk uid gid (Holds data))
    as [[? _]|[(_ & ? & _)|[(_ & ? & _)|[(_ & ? & _)|
          (d & rec & _ & [= <-] & -> & H)]]]]; try done.
  rewrite Hnone in H. simpl in H.
  destruct H as [[Hsame _]|[_ H]]; [by symmetry in Hsame|done].
Qed.

Lemma checked_in_fresh clk uid gid :
  checked_in clk (fresh_record uid gid (today clk)) =
  {| user_id := uid; group_id := gid; first_date := today clk;
     last_date := today clk; total_days := 1; continuous_days := 1;
     history := [ entry_of clk ] |}.
Proof. unfold checked_in, fresh_record, entry_of; simpl. by destruct (yesterday clk). Qed.

(** X4. A subject with no record who checks in on [n] days that follow one
    another (never at night) ends with [continuous_days = total_days = n],
    one history entry per day in order, and the first day as [first_date]. *)
Theorem checkins_consecutive_days clk clks uid gid data :
  data !! checkin_key uid gid = None ->
  period clk <> "night" ->
  today clk <> "" ->
  day_after_day (today clk) clks ->
  exists data' r,
    checkins (clk :: clks) uid gid (Holds data) = Holds data' /\
    data' !! checkin_key uid gid = Some r /\
    continuous_days r = Z.of_nat (length (clk :: clks)) /\
    total_days r = Z.of_nat (length (clk :: clks)) /\
    history r = map entry_of (clk :: clks) /\
    first_date r = today clk.
Proof.
  intros Hnone Hn Ht Hdays. simpl checkins.
  rewrite (handle_checkin_fresh clk uid gid data Hnone Hn Ht). simpl snd.
  set (first := checked_in clk (fresh_record uid gid (today clk))).
  destruct (checkins_day_after_day clks uid gid
              (<[checkin_key uid gid := first]> data) first)
    as (data' & r & Hrest & Hr & Hc & Htot & Hh & Hf).
  { apply lookup_insert_eq. }
  { done. }
  exists data', r. split; [done|]. split; [done|].
  unfold first in Hc, Htot, Hh, Hf. rewrite checked_in_fresh in Hc, Htot, Hh, Hf.
  simpl in Hc, Htot, Hh, Hf.
  repeat split.
  - rewrite Hc. simpl length. lia.
  - rewrite Htot. simpl length. lia.
  - done.
  - done.
Qed.

Definition next_day_clock : Clock :=
  {| period := "morning"; today := "2024-03-03"; now_time := "08:00:00";
     yesterday := "2024-03-02" |}.

Lemma checkins_consecutive_days_witness :
  (∅ : gmap string CheckinRecord) !! checkin_key 1 2 = None /\
  period afternoon_clock <> "night" /\
  today afternoon_clock <> "" /\
  day_after_day (today afternoon_clock) [next_day_clock] /\
  exists data' r,
    checkins [afternoon_clock; next_day_clock] 1 2 (Holds ∅) = Holds data' /\
    data' !! checkin_key 1 2 = Some r /\
    continuous_days r = 2 /\ total_days r = 2 /\
    history r = map entry_of [afternoon_clock; next_day_clock] /\
    first_date r = today afternoon_clock.
Proof.
  assert (H1 : (∅ : gmap string CheckinRecord) !! checkin_key 1 2 = None)
    by apply lookup_empty.
  assert (H2 : period afternoon_clock <> "night") by discriminate.
  assert (H3 : today afternoon_clock <> "") by discriminate.
  assert (H4 : day_after_day (today afternoon_clock) [next_day_clock]).
  { simpl. repeat split; discriminate. }
  split; [exact H1|]. split; [exact H2|]. split; [exact H3|]. split; [exact H4|].
  exact (checkins_consecutive_days afternoon_clock [next_day_clock] 1 2 ∅ H1 H2 H3 H4).
Defined.

(** X5. On a fresh installation ([_init_data_file] finds no file) the first
    call outside the night bucket succeeds and writes a store with exactly
    one record: [total_days = continuous_days = 1], both dates today, one
    history entry. After [_init_data_file] the handler never ends with
    [FileNotFoundError]; a corrupt file is not repaired by it. *)
Theorem first_checkin_after_init clk uid gid :
  period clk <> "night" ->
  today clk <> "" ->
  let r := {| user_id := uid; group_id := gid; first_date := today clk;
              last_date := today clk; total_days := 1; continuous_days := 1;
              history := [ entry_of clk ] |} in
  handle_checkin clk uid gid (_init_data_file Missing) =
    (CheckedIn r, Holds {[ checkin_key uid gid := r ]}) /\
  (forall doc clk',
     fst (handle_checkin clk' uid gid (_init_data_file doc)) <> Raised FileNotFoundError) /\
  handle_checkin clk uid gid (_init_data_file Corrupt) = (Raised JSONDecodeError, Corrupt).
Proof.
  intros Hn Ht r. split; [|split].
  - simpl _init_data_file.
    rewrite (handle_checkin_fresh clk uid gid ∅ (lookup_empty _) Hn Ht).
    rewrite checked_in_fresh. by rewrite insert_empty.
  - intros doc clk'.
    destruct (CheckinSpec.handle_checkin_cases clk' uid gid (_init_data_file doc))
      as [[_ E]|[(_ & Hm & _)|[(_ & _ & E)|[(_ & _ & E)|
            (data & rec & _ & _ & _ & [[_ E]|[_ E]])]]]];
      try (rewrite E; discriminate).
    by destruct doc.
  - unfold handle_checkin.
    by rewrite (proj2 (CheckinSpec.eqb_false_iff _ _) Hn).
Qed.

Lemma first_checkin_after_init_witness :
  period afternoon_clock <> "night" /\
  today afternoon_clock <> "" /\
  let r := {| user_id := 1; group_id := 2; first_date := today afternoon_clock;
              last_date := today afternoon_clock; total_days := 1;
              continuous_days := 1; history := [ entry_of afternoon_clock ] |} in
  handle_checkin afternoon_clock 1 2 (_init_data_file Missing) =
    (CheckedIn r, Holds {[ checkin_key 1 2 := r ]}) /\
  (forall doc clk',
     fst (handle_checkin clk' 1 2 (_init_data_file doc)) <> Raised FileNotFoundError) /\
  handle_checkin afternoon_clock 1 2 (_init_data_file Corrupt) =
    (Raised JSONDecodeError, Corrupt).
Proof.
  assert (H1 : period afternoon_clock <> "night") by discriminate.
  assert (H2 : today afternoon_clock <> "") by discriminate.
  split; [exact H1|]. split; [exact H2|].
  exact (first_checkin_after_init afternoon_clock 1 2 H1 H2).
Defined.

(** X6. Once a page has been fetched and a text cut from it that is not
    empty, every call made less than six hours after the moment it was
    stored returns that text without any request, whatever the network
    would answer, and leaves the cache as it is. *)
Theorem horoscope_served_from_cache now content now' st now2 fetch2 now2' :
  snd (fst (_get_horoscope now (Page content) now' st)) = true ->
  almanac_of content <> "" ->
  now2 - now' < six_hours ->
  let st1 := snd (_get_horoscope now (Page content) now' st) in
  _get_horoscope now2 fetch2 now2' st1 = (almanac_of content, false, st1).
Proof.
  intros Hreq Hne Hfresh st1.
  assert (Hst1 : st1 = {| horoscope_cache := Some (almanac_of content);
                          cache_time := Some now' |}).
  { unfold st1, _get_horoscope in *.
    destruct (cache_usable st) as [[text t]|]; [|done].
    by destruct (now - t <? six_hours)%Z. }
  rewrite Hst1. unfold _get_horoscope, cache_usable; simpl.
  rewrite (proj2 (CheckinSpec.eqb_false_iff _ _) Hne).
  by rewrite (proj2 (Z.ltb_lt _ _) Hfresh).
Qed.

Definition sample_page : string :=
  "黄历 今日宜：出行 会友 今日忌：争吵 借贷".

Lemma horoscope_served_from_cache_witness :
  let st := mkCache None None in
  snd (fst (_get_horoscope 0 (Page sample_page) 5 st)) = true /\
  almanac_of sample_page <> "" /\
  1000 - 5 < six_hours /\
  let st1 := snd (_get_horoscope 0 (Page sample_page) 5 st) in
  _get_horoscope 1000 FetchFailed 1001 st1 = (almanac_of sample_page, false, st1).
Proof.
  intros st.
  assert (H1 : snd (fst (_get_horoscope 0 (Page sample_page) 5 st)) = true)
    by reflexivity.
  assert (H2 : almanac_of sample_page <> "") by (vm_compute; discriminate).
  assert (H3 : 1000 - 5 < six_hours) by (vm_compute; reflexivity).
  split; [exact H1|]. split; [exact H2|]. split; [exact H3|].
  exact (horoscope_served_from_cache 0 sample_page 5 st 1000 FetchFailed 1001 H1 H2 H3).
Defined.

(** X7. A failed request never touches the cache, and the caller gets
    either the text still fresh in the cache (no request made) or the
    failure text: a cached text older than six hours is not served. When
    the text cut from a page is empty it is stored but never served: the
    next call requests again. *)
Theorem horoscope_failure_keeps_cache now now' st :
  snd (_get_horoscope now FetchFailed now' st) = st /\
  (fst (_get_horoscope now FetchFailed now' st) = (fetch_failed_text, true) \/
   exists text t,
     cache_usable st = Some (text, t) /\ now - t < six_hours /\
     fst (_get_horoscope now FetchFailed now' st) = (text, false)) /\
  (forall fetch t,
     snd (fst (_get_horoscope now fetch now' (mkCache (Some "") (Some t)))) = true).
Proof.
  split; [|split].
  - unfold _get_horoscope. destruct (cache_usable st) as [[text t]|]; [|done].
    by destruct (now - t <? six_hours)%Z.
  - unfold _get_horoscope. destruct (cache_usable st) as [[text t]|]; [|by left].
    destruct (now - t <? six_hours)%Z eqn:Hfresh; [|by left].
    right. exists text, t. split; [done|]. split; [by apply Z.ltb_lt|done].
  - intros fetch t. unfold _get_horoscope, cache_usable; simpl. by destruct fetch.
Qed.

End CheckinExtSpec.

(** ** More on the draw and its handler *)

Module DivinationExtSpec.
Import Divination DivinationExt.
Local Open Scope list_scope.
Local Open Scope nat_scope.

(** The search keeps the value between the weight just below the result
    and the weight at the result. *)
Lemma bisect_loop_bracket fuel a x lo hi lo0 hi0 :
  lo <= hi -> hi - lo <= fuel ->
  (lo = lo0 \/ (x <? nth (lo - 1) a nan)%float = false) ->
  (hi = hi0 \/ (x <? nth hi a nan)%float = true) ->
  let r := bisect_loop fuel a x lo hi in
  (r = lo0 \/ (x <? nth (r - 1) a nan)%float = false) /\
  (r = hi0 \/ (x <? nth r a nan)%float = true).
Proof.
  revert lo hi. induction fuel as [|fuel IH]; intros lo hi Hle Hfuel Hlo Hhi;
    cbn [bisect_loop].
  - assert (lo = hi) as -> by lia. done.
  - destruct (lo <? hi) eqn:Hlt.
    + apply Nat.ltb_lt in Hlt.
      assert (Hmid : lo <= (lo + hi) / 2 < hi).
      { split.
        - apply Nat.div_le_lower_bound; lia.
        - apply Nat.Div0.div_lt_upper_bound; lia. }
      destruct (x <? nth ((lo + hi) / 2) a nan)%float eqn:Hx.
      * apply IH; [lia|lia|done|by right].
      * apply IH; [lia|lia| |done].
        right. by replace ((lo + hi) / 2 + 1 - 1) with ((lo + hi) / 2) by lia.
    + apply Nat.ltb_ge in Hlt. assert (lo = hi) as -> by lia. done.
Qed.

(** X8. What [random.choices] returns: the element at the index [i] found
    by the search over the running sums of the weights. The float drawn,
    times the total, is not below the running sum before [i] (unless [i]
    is the first index) and is below the running sum at [i] (unless [i] is
    the last index): a value equal to a running sum falls to the next
    element. *)
Theorem choices_bracket {G : Type} `{RandomSource G} {A : Type}
    (population : list A) (weights : list float) (g g' : G) (a : A) :
  choices population weights g = (Ok a, g') ->
  exists (i : nat) (top : float),
    nth_error population i = Some a /\
    last (accumulate weights) = Some top /\
    g' = snd (rs_random g) /\
    let x := (fst (rs_random g) * (top + 0))%float in
    (i = 0 \/ (x <? nth (i - 1) (accumulate weights) nan)%float = false) /\
    (i = length population - 1 \/ (x <? nth i (accumulate weights) nan)%float = true).
Proof.
  unfold choices. destruct (negb _); [done|].
  destruct (last (accumulate weights)) as [top|]; [|done].
  destruct (_ <=? 0)%float; [done|]. destruct (negb _); [done|].
  destruct (rs_random g) as [x g1]. simpl.
  destruct (nth_error population _) as [a'|] eqn:Hnth; [|done].
  intros [= -> ->].
  eexists _, top. split; [exact Hnth|]. split; [done|]. split; [done|].
  unfold bisect.
  apply bisect_loop_bracket; [lia|lia|by left|by left].
Qed.

Lemma choices_bracket_witness :
  let g := mkScript [0.25%float] [] in
  choices ["a"; "b"; "c"]%string [0.25; 0.25; 0.5]%float g =
    (Ok "b"%string, snd (rs_random g)) /\
  exists (i : nat) (top : float),
    nth_error ["a"; "b"; "c"]%string i = Some "b"%string /\
    last (accumulate [0.25; 0.25; 0.5]%float) = Some top /\
    snd (rs_random g) = snd (rs_random g) /\
    let x := (fst (rs_random g) * (top + 0))%float in
    (i = 0 \/ (x <? nth (i - 1) (accumulate [0.25; 0.25; 0.5]%float) nan)%float = false) /\
    (i = length ["a"; "b"; "c"]%string - 1 \/
     (x <? nth i (accumulate [0.25; 0.25; 0.5]%float) nan)%float = true).
Proof.
  intros g.
  assert (Hrun : choices ["a"; "b"; "c"]%string [0.25; 0.25; 0.5]%float g =
                 (Ok "b"%string, snd (rs_random g))) by reflexivity.
  split; [exact Hrun|].
  exact (choices_bracket _ _ g _ _ Hrun).
Defined.

(** The draw returns one of the five levels and one of its details. *)
Lemma generate_luck_member {G : Type} `{RandomSource G} v c (g : G) :
  exists level detail details g',
    _generate_luck v c g = (Ok (level, detail), g') /\
    level ∈ map fst weights /\
    dict_item _load_lucky_data level = Ok details /\
    detail ∈ details.
Proof.
  unfold _generate_luck, _generate_luck_with, draw_bind, draw_lift.
  rewrite DivinationSpec.final_weights_spec.
  unfold draw_from, draw_bind, draw_lift, draw_ret.
  destruct (DivinationSpec.choices_ok (map fst (spec_distribution v c))
              (map snd (spec_distribution v c)) g) as (level & -> & Hin).
  { by destruct v. }
  { apply DivinationSpec.spec_distribution_accepted. }
  destruct (DivinationSpec.lucky_data_complete v c level Hin) as (details & Hd & Hne).
  rewrite Hd.
  destruct (DivinationSpec.choice_ok details (snd (rs_random g)) Hne)
    as (detail & -> & Hdetail).
  exists level, detail, details. eexists. split; [done|]. split; [|done].
  assert (Hlevels : map fst (spec_distribution v c) = map fst weights) by reflexivity.
  by rewrite <- Hlevels.
Qed.

(** The segments after the first four: the advice, if the level has any,
    then the line for the one hard-wired user. *)
Definition closing_segments (user_id : Z) (lucky_level : string)
    (extra : list string) : Prop :=
  exists advice_part,
    extra = advice_part ++
            (if bool_decide (user_id = 1055411737%Z) then [ vip_line ] else []) /\
    match dict_get advices lucky_level with
    | Some advice_list =>
      exists advice, advice ∈ advice_list /\ advice_part = [ advice_prefix +:+ advice ]
    | None => advice_part = []
    end.

Lemma icon_of_level level :
  level ∈ map fst weights -> exists icon, dict_get icon_map level = Some icon.
Proof.
  simpl. intros Hlevel.
  repeat (apply elem_of_cons in Hlevel as [->|Hlevel]);
    [..|by apply elem_of_nil in Hlevel]; by eexists.
Qed.

Lemma advices_non_empty level advice_list :
  dict_get advices level = Some advice_list ->
  advice_list <> [] /\ forall advice, advice ∈ advice_list -> String.eqb advice "" = false.
Proof.
  unfold advices. cbn [dict_get].
  repeat (destruct (String.eqb level _);
          [intros [= <-]; split; [done|];
           intros advice Hadv;
           repeat (apply elem_of_cons in Hadv as [->|Hadv]);
           [..|by apply elem_of_nil in Hadv]; reflexivity|]).
  done.
Qed.

Lemma personal_advice_shape {G : Type} `{RandomSource G} level (g : G) :
  exists advice g',
    _get_personal_advice level g = (Ok advice, g') /\
    match dict_get advices level with
    | Some advice_list => advice ∈ advice_list /\ String.eqb advice "" = false
    | None => advice = ""%string
    end.
Proof.
  unfold _get_personal_advice.
  destruct (dict_get advices level) as [advice_list|] eqn:Hlist.
  - destruct (advices_non_empty level advice_list Hlist) as [Hne Hall].
    destruct (DivinationSpec.choice_ok advice_list g Hne) as (advice & -> & Hadv).
    exists advice. eexists. split; [done|]. split; [done|by apply Hall].
  - exists ""%string, g. done.
Qed.

Lemma build_message_shape {G : Type} `{RandomSource G}
    user_id constellation level detail (g : G) :
  level ∈ map fst weights ->
  exists icon extra g',
    dict_get icon_map level = Some icon /\
    _build_message user_id constellation level detail g =
      (Ok ([ "✨ " +:+ constellation +:+ "今日运势 ✨" +:+ newline;
             icon +:+ " ";
             "「" +:+ level +:+ "」" +:+ newline;
             detail ] ++ extra), g') /\
    closing_segments user_id level extra.
Proof.
  intros Hlevel. destruct (icon_of_level level Hlevel) as [icon Hicon].
  destruct (personal_advice_shape level g) as (advice & g' & Hadvice & Hshape).
  unfold _build_message, draw_bind, draw_lift, draw_ret, dict_item.
  rewrite Hicon, Hadvice. unfold py_insert. simpl take. simpl drop.
  unfold closing_segments.
  destruct (dict_get advices level) as [advice_list|].
  - destruct Hshape as [Hadv ->].
    exists icon,
      ([ advice_prefix +:+ advice ] ++
       (if bool_decide (user_id = 1055411737%Z) then [ vip_line ] else [])), g'.
    split; [done|]. split.
    + destruct (bool_decide (user_id = 1055411737%Z)).
      * rewrite <- !app_assoc. reflexivity.
      * reflexivity.
    + exists [ advice_prefix +:+ advice ]. split; [done|]. by exists advice.
  - subst advice. simpl String.eqb. cbv iota.
    exists icon,
      (if bool_decide (user_id = 1055411737%Z) then [ vip_line ] else []), g'.
    split; [done|]. split.
    + destruct (bool_decide (user_id = 1055411737%Z)); [reflexivity|].
      by rewrite app_nil_r.
    + by exists [].
Qed.

(** X9. For each of the twelve constellations [handle_divination] sends
    exactly one message to the group and then ends with the [NameError]
    raised in [_record_history]: the user's list in the history is created
    if it was missing, and nothing is added to it. The message opens with
    the title, the icon of the level, the level and a detail of that level;
    it closes with an advice when the level has advices, and with the
    guest line exactly when the user is 1055411737. *)
Theorem handle_divination_valid {G : Type} `{RandomSource G} (v : PySum)
    (user_id group_id : Z) (constellation : string)
    (history : gmap Z (list HistoryItem)) (g : G) :
  constellation ∈ constellations ->
  exists level detail details icon extra g',
    handle_divination v user_id group_id constellation history g =
      ([ (group_id,
          Rich ([ "✨ " +:+ constellation +:+ "今日运势 ✨" +:+ newline;
                  icon +:+ " ";
                  "「" +:+ level +:+ "」" +:+ newline;
                  detail ] ++ extra)) ],
       Some (NameError "datetime"),
       match history !! user_id with
       | Some _ => history
       | None => <[user_id := []]> history
       end,
       g') /\
    dict_get icon_map level = Some icon /\
    dict_item _load_lucky_data level = Ok details /\
    detail ∈ details /\
    closing_segments user_id level extra.
Proof.
  intros Hvalid. unfold handle_divination.
  rewrite (bool_decide_eq_true_2 _ Hvalid). simpl negb. cbv iota.
  destruct (generate_luck_member v constellation g)
    as (level & detail & details & g1 & -> & Hlevel & Hdetails & Hdetail).
  destruct (build_message_shape user_id constellation level detail g1 Hlevel)
    as (icon & extra & g2 & Hicon & -> & Hextra).
  exists level, detail, details, icon, extra, g2.
  by unfold _record_history.
Qed.

Lemma handle_divination_valid_witness :
  let g := mkScript [0.02%float] [1; 0] in
  "白羊座"%string ∈ constellations /\
  exists level detail details icon extra g',
    handle_divination Sequential 1055411737%Z 99%Z "白羊座" ∅ g =
      ([ (99%Z,
          Rich ([ "✨ " +:+ "白羊座" +:+ "今日运势 ✨" +:+ newline;
                  icon +:+ " ";
                  "「" +:+ level +:+ "」" +:+ newline;
                  detail ] ++ extra)) ],
       Some (NameError "datetime"),
       match (∅ : gmap Z (list HistoryItem)) !! 1055411737%Z with
       | Some _ => ∅
       | None => <[1055411737%Z := []]> ∅
       end,
       g') /\
    dict_get icon_map level = Some icon /\
    dict_item _load_lucky_data level = Ok details /\
    detail ∈ details /\
    closing_segments 1055411737%Z level extra.
Proof.
  intros g.
  assert (Hvalid : "白羊座"%string ∈ constellations) by (apply elem_of_cons; by left).
  split; [exact Hvalid|].
  exact (handle_divination_valid Sequential 1055411737%Z 99%Z "白羊座" ∅ g Hvalid).
Defined.

(** X10. No draw is ever recorded: after any number of calls, with valid
    or invalid constellations, every list in the history is empty. A call
    with a name outside the twelve reads no random value and leaves the
    history as it is. *)
Theorem history_stays_empty {G : Type} `{RandomSource G}
    (history : gmap Z (list HistoryItem)) :
  history_reachable (G := G) history ->
  (forall user_id items, history !! user_id = Some items -> items = []) /\
  (forall v user_id group_id constellation (g : G),
     constellation ∉ constellations ->
     handle_divination v user_id group_id constellation history g =
       ([ (group_id, Plain _get_invalid_constellation_msg) ], None, history, g)).
Proof.
  intros Hreach. split.
  - induction Hreach as [|v uid gid c history g _ IH].
    + intros uid items. by rewrite lookup_empty.
    + unfold handle_divination.
      destruct (bool_decide (c ∈ constellations)) eqn:Hc; simpl negb; cbv iota; [|done].
      destruct (_generate_luck v c g) as [[[level detail]|e] g1]; [|done].
      destruct (_build_message uid c level detail g1) as [[msg|e] g2]; [|done].
      unfold _record_history. simpl.
      destruct (history !! uid) eqn:Hu; [done|].
      intros uid' items. destruct (decide (uid' = uid)) as [->|Hne].
      * rewrite lookup_insert_eq. by intros [= <-].
      * rewrite lookup_insert_ne by done. apply IH.
  - intros v uid gid c g Hc. unfold handle_divination.
    by rewrite (bool_decide_eq_false_2 _ Hc).
Qed.

Lemma history_stays_empty_witness :
  let history :=
    snd (fst (handle_divination Sequential 5%Z 99%Z "白羊座" ∅ (mkScript [0.02%float] []))) in
  history_reachable (G := Script) history /\
  (forall user_id items, history !! user_id = Some items -> items = []) /\
  (forall v user_id group_id constellation (g : Script),
     constellation ∉ constellations ->
     handle_divination v user_id group_id constellation history g =
       ([ (group_id, Plain _get_invalid_constellation_msg) ], None, history, g)).
Proof.
  intros history.
  assert (Hr : history_reachable (G := Script) history).
  { apply (history_step (G := Script)), history_initial. }
  split; [exact Hr|].
  exact (history_stays_empty history Hr).
Defined.

End DivinationExtSpec.

(** ** Start-up files and the blacklist, beyond membership *)

Module ConfigExtSpec.
Import Config ConfigExt.
Local Open Scope list_scope.

(** What the loop leaves under each name: a file that existed is kept, a
    missing one gets the first content the table lists for it. *)
Lemma ensure_files_spec files data_dir name :
  ensure_files files data_dir name =
  match data_dir name with
  | Missing =>
    match dict_get files name with
    | Some content => Holds content
    | None => Missing
    end
  | doc => doc
  end.
Proof.
  revert data_dir. induction files as [|[filename content] files IH];
    intros data_dir; cbn [ensure_files dict_get].
  - by destruct (data_dir name).
  - rewrite IH. destruct (String.eqb name filename) eqn:Hname.
    + apply String.eqb_eq in Hname as ->.
      destruct (data_dir filename) eqn:Hdoc; simpl; rewrite ?Hdoc; try done.
      unfold write_json. by rewrite String.eqb_refl.
    + destruct (exists_file (data_dir filename)); [done|].
      unfold write_json. by rewrite Hname.
Qed.

(** X11. [_ensure_data_dir] creates what is missing and nothing else: a
    file that exists (even an unreadable one) and every file outside its
    table is left as it is, each missing file of the table holds its default
    afterwards, and a second run changes nothing. Hence [_load_json] after
    start-up gives the default for a file that was missing, falls back to
    [{}] only for a file whose text is not JSON, and raises
    [UnicodeDecodeError] for a file whose bytes are not UTF-8. *)
Theorem ensure_data_dir_creates_missing (data_dir : string -> Document json)
    (name : string) (content : json) :
  dict_get required_files name = Some content ->
  let after := _ensure_data_dir data_dir in
  exists_file (after name) = true /\
  (forall other, exists_file (data_dir other) = true \/
                 dict_get required_files other = None ->
                 after other = data_dir other) /\
  (data_dir name = Missing -> after name = Holds content) /\
  (forall other, _ensure_data_dir after other = after other) /\
  _load_json after name =
    match data_dir name with
    | Missing => Ok content
    | Corrupt => Ok (JDict [])
    | Undecodable => Raise UnicodeDecodeError
    | Holds v => Ok v
    end.
Proof.
  intros Hname after. unfold after, _ensure_data_dir.
  split; [|split; [|split; [|split]]].
  - rewrite ensure_files_spec, Hname. by destruct (data_dir name).
  - intros other [Hex|Hnone]; rewrite ensure_files_spec.
    + by destruct (data_dir other).
    + rewrite Hnone. by destruct (data_dir other).
  - intros Hmiss. by rewrite ensure_files_spec, Hmiss, Hname.
  - intros other. rewrite !ensure_files_spec.
    destruct (data_dir other); [|done..].
    by destruct (dict_get required_files other).
  - unfold _load_json. rewrite ensure_files_spec, Hname.
    by destruct (data_dir name).
Qed.

Lemma ensure_data_dir_creates_missing_witness :
  dict_get required_files "blacklist.json" =
    Some (JDict [ ("users", JList []); ("words", JList []) ]) /\
  let data_dir := fun name : string =>
    if String.eqb name "whitelist.json" then @Corrupt json else Missing in
  let after := _ensure_data_dir data_dir in
  exists_file (after "blacklist.json") = true /\
  (forall other, exists_file (data_dir other) = true \/
                 dict_get required_files other = None ->
                 after other = data_dir other) /\
  (data_dir "blacklist.json" = Missing ->
   after "blacklist.json" = Holds (JDict [ ("users", JList []); ("words", JList []) ])) /\
  (forall other, _ensure_data_dir after other = after other) /\
  _load_json after "blacklist.json" =
    match data_dir "blacklist.json" with
    | Missing => Ok (JDict [ ("users", JList []); ("words", JList []) ])
    | Corrupt => Ok (JDict [])
    | Undecodable => Raise UnicodeDecodeError
    | Holds v => Ok v
    end.
Proof.
  split; [reflexivity|].
  exact (ensure_data_dir_creates_missing
           (fun name : string =>
              if String.eqb name "whitelist.json" then @Corrupt json else Missing)
           "blacklist.json" _ eq_refl).
Defined.

Lemma py_remove_other (x u : Z) (l : list Z) :
  x <> u -> (x ∈ py_remove u l <-> x ∈ l).
Proof.
  intros Hne. induction l as [|y l IH]; simpl; [done|].
  case_bool_decide as Hy.
  - subst y. rewrite elem_of_cons. split; [by right|]. by intros [?|?].
  - rewrite !elem_of_cons, IH. done.
Qed.

(** X12. Adding or removing one user never changes whether another user
    is blacklisted, and neither operation touches the blocked words. *)
Theorem blacklist_other_users (m : Manager) (u v : Z) :
  v <> u ->
  is_blacklisted v (add_to_blacklist u m) = is_blacklisted v m /\
  is_blacklisted v (remove_from_blacklist u m) = is_blacklisted v m /\
  words (blacklist (add_to_blacklist u m)) = words (blacklist m) /\
  words (blacklist (remove_from_blacklist u m)) = words (blacklist m).
Proof.
  intros Hne. unfold is_blacklisted, add_to_blacklist, remove_from_blacklist.
  destruct (bool_decide (u ∈ users (blacklist m))); simpl; repeat split.
  - apply bool_decide_ext. by apply py_remove_other.
  - apply bool_decide_ext. rewrite elem_of_app, list_elem_of_singleton.
    split; [by intros [?|?]|by left].
Qed.

Lemma blacklist_other_users_witness :
  (7 <> 5)%Z /\
  is_blacklisted 7 (add_to_blacklist 5 initial_manager) = is_blacklisted 7 initial_manager /\
  is_blacklisted 7 (remove_from_blacklist 5 initial_manager) =
    is_blacklisted 7 initial_manager /\
  words (blacklist (add_to_blacklist 5 initial_manager)) =
    words (blacklist initial_manager) /\
  words (blacklist (remove_from_blacklist 5 initial_manager)) =
    words (blacklist initial_manager).
Proof.
  assert (Hne : (7 <> 5)%Z) by discriminate.
  split; [exact Hne|]. exact (blacklist_other_users initial_manager 5 7 Hne).
Defined.

Lemma py_remove_count (x u : Z) (l : list Z) :
  count_occ Z.eq_dec (py_remove u l) x =
  if bool_decide (x = u) then pred (count_occ Z.eq_dec l x)
  else count_occ Z.eq_dec l x.
Proof.
  induction l as [|y l IH]; simpl.
  - by destruct (bool_decide (x = u)).
  - destruct (bool_decide (u = y)) eqn:Hy.
    + apply bool_decide_eq_true in Hy. subst y.
      destruct (Z.eq_dec u x) as [->|Hne].
      * by rewrite bool_decide_eq_true_2.
      * rewrite bool_decide_eq_false_2; [done|congruence].
    + apply bool_decide_eq_false in Hy. simpl. rewrite IH.
      destruct (Z.eq_dec y x) as [->|Hne]; [|done].
      rewrite bool_decide_eq_false_2; [done|congruence].
Qed.

Lemma count_occ_elem_of (x : Z) (l : list Z) :
  x ∈ l <-> (0 < count_occ Z.eq_dec l x)%nat.
Proof. rewrite list_elem_of_In. apply count_occ_In. Qed.

(** X13. [remove_from_blacklist] takes away exactly one occurrence: the
    user listed once is no longer blacklisted, the user listed twice or
    more (a file written by hand) still is; every other user is listed as
    often as before. *)
Theorem remove_from_blacklist_once (m : Manager) (u x : Z) :
  count_occ Z.eq_dec (users (blacklist (remove_from_blacklist u m))) x =
    (if bool_decide (x = u) then pred (count_occ Z.eq_dec (users (blacklist m)) x)
     else count_occ Z.eq_dec (users (blacklist m)) x) /\
  (is_blacklisted u (remove_from_blacklist u m) = true <->
   (2 <= count_occ Z.eq_dec (users (blacklist m)) u)%nat).
Proof.
  assert (Hcount : forall y,
    count_occ Z.eq_dec (users (blacklist (remove_from_blacklist u m))) y =
    if bool_decide (y = u) then pred (count_occ Z.eq_dec (users (blacklist m)) y)
    else count_occ Z.eq_dec (users (blacklist m)) y).
  { intros y. unfold remove_from_blacklist.
    destruct (bool_decide (u ∈ users (blacklist m))) eqn:Hin; simpl.
    - apply py_remove_count.
    - destruct (bool_decide (y = u)) eqn:Hy; [|done].
      apply bool_decide_eq_true in Hy. subst y.
      apply bool_decide_eq_false in Hin.
      rewrite count_occ_elem_of in Hin.
      destruct (count_occ Z.eq_dec (users (blacklist m)) u); [done|lia]. }
  split; [apply Hcount|].
  unfold is_blacklisted. rewrite bool_decide_eq_true, count_occ_elem_of, Hcount.
  rewrite bool_decide_eq_true_2 by done. lia.
Qed.

(** X14. In every state reached from the freshly created blacklist the
    file holds exactly what the manager holds in memory, and adding a user
    who was not listed and removing it again gives back the list of users
    as it was. *)
Theorem blacklist_file_in_step (m : Manager) (u : Z) :
  manager_reachable m ->
  blacklist_json m = Holds (blacklist m) /\
  (u ∉ users (blacklist m) ->
   users (blacklist (remove_from_blacklist u (add_to_blacklist u m))) =
   users (blacklist m)).
Proof.
  intros Hreach. split.
  - induction Hreach as [|v m _ IH|v m _ IH]; [done|..].
    + unfold add_to_blacklist. by destruct (negb _).
    + unfold remove_from_blacklist. by destruct (bool_decide _).
  - intros Hnot. unfold add_to_blacklist.
    rewrite (bool_decide_eq_false_2 _ Hnot). simpl.
    unfold remove_from_blacklist. simpl.
    rewrite bool_decide_eq_true_2
      by (apply elem_of_app; right; by apply list_elem_of_singleton).
    simpl. clear Hreach. induction (users (blacklist m)) as [|y l IH]; simpl.
    + by rewrite bool_decide_eq_true_2.
    + apply not_elem_of_cons in Hnot as [Hy Hl].
      rewrite bool_decide_eq_false_2 by done. by rewrite IH.
Qed.

Lemma blacklist_file_in_step_witness :
  manager_reachable (add_to_blacklist 5 initial_manager) /\
  blacklist_json (add_to_blacklist 5 initial_manager) =
    Holds (blacklist (add_to_blacklist 5 initial_manager)) /\
  (9%Z ∉ users (blacklist (add_to_blacklist 5 initial_manager)) ->
   users (blacklist (remove_from_blacklist 9
            (add_to_blacklist 9 (add_to_blacklist 5 initial_manager)))) =
   users (blacklist (add_to_blacklist 5 initial_manager))).
Proof.
  assert (Hr : manager_reachable (add_to_blacklist 5 initial_manager)).
  { apply manager_add, manager_initial. }
  split; [exact Hr|].
  exact (blacklist_file_in_step (add_to_blacklist 5 initial_manager) 9 Hr).
Defined.

End ConfigExtSpec.

(** ** Admin commands, shutdown codes, permission requests *)

Module DeveloperExtSpec.
Import Config ConfigExt Developer DeveloperExt.
Local Open Scope list_scope.

Lemma py_remove_length (x : Z) (l : list Z) :
  (length (py_remove x l) <= length l)%nat.
Proof.
  induction l as [|y l IH]; simpl; [done|].
  destruct (bool_decide (x = y)); simpl; lia.
Qed.

(** What one message can do to the configuration and to the chat. *)
Definition command_step (cfg : PluginConfig)
    (r : result bool * list Sent * PluginConfig) : Prop :=
  ((fst (fst r) = Ok true /\ exists text, snd (fst r) = [ Send text ]) \/
   (fst (fst r) = Ok false /\ snd (fst r) = [] /\ snd r = cfg) \/
   (fst (fst r) = Raise ValueError /\ snd (fst r) = [] /\ snd r = cfg)) /\
  master_qq (snd r) = master_qq cfg /\
  vip_users (snd r) = vip_users cfg /\
  permission_mode (snd r) = permission_mode cfg /\
  (length (agents (snd r)) <= Nat.max 2 (length (agents cfg)))%nat.

Lemma command_step_none cfg : command_step cfg (Ok false, [], cfg).
Proof. unfold command_step; simpl. repeat split; [right; by left|lia]. Qed.

Lemma command_step_raise cfg : command_step cfg (Raise ValueError, [], cfg).
Proof. unfold command_step; simpl. repeat split; [right; by right|lia]. Qed.

Lemma handle_agent_add_step `{StrLib} cfg qq_str :
  command_step cfg (_handle_agent_add cfg qq_str).
Proof.
  unfold _handle_agent_add.
  destruct (negb (py_isdigit qq_str)); [apply command_step_none|].
  destruct (py_int qq_str) as [qq|]; [|apply command_step_raise].
  destruct (2 <=? length (agents cfg))%nat eqn:Hfull;
    unfold command_step; simpl; repeat split;
    try (left; split; [done|by eexists]).
  - lia.
  - apply Nat.leb_gt in Hfull. rewrite length_app; simpl. lia.
Qed.

Lemma handle_agent_remove_step `{StrLib} cfg qq_str :
  command_step cfg (_handle_agent_remove cfg qq_str).
Proof.
  unfold _handle_agent_remove.
  destruct (negb (py_isdigit qq_str)); [apply command_step_none|].
  destruct (py_int qq_str) as [qq|]; [|apply command_step_raise].
  destruct (bool_decide (qq ∈ agents cfg));
    unfold command_step; simpl; repeat split;
    try (left; split; [done|by eexists]).
  - pose proof (py_remove_length qq (agents cfg)). lia.
  - lia.
Qed.

Lemma check_developer_commands_step `{StrLib} cfg event :
  command_step cfg (check_developer_commands cfg event).
Proof.
  unfold check_developer_commands.
  destruct (kind event); [| |apply command_step_none].
  all: destruct (negb (is_admin cfg (user_id event))); [apply command_step_none|].
  all: destruct (String.prefix "参谋" _); [apply handle_agent_add_step|].
  all: destruct (String.prefix "变卦" _); [apply handle_agent_remove_step|].
  all: destruct (String.eqb _ "观星");
         [unfold command_step; simpl; repeat split;
          [left; split; [done|by eexists]|lia]|].
  all: destruct (String.eqb _ "合眼");
         [unfold command_step; simpl; repeat split;
          [left; split; [done|by eexists]|lia]|].
  all: apply command_step_none.
Qed.

(** X15. Whatever the message, [check_developer_commands] ends in one of
    three ways: it returns [True] after exactly one reply sent with
    [bot.send]; it returns [False] having sent nothing and changed nothing
    in the configuration; or it ends with the [ValueError] of [int()],
    having sent nothing and changed nothing. *)
Theorem check_developer_commands_reply `{StrLib}
    (cfg : PluginConfig) (event : MessageEvent) :
  let r := check_developer_commands cfg event in
  (fst (fst r) = Ok true /\ exists text, snd (fst r) = [ Send text ]) \/
  (fst (fst r) = Ok false /\ snd (fst r) = [] /\ snd r = cfg) \/
  (fst (fst r) = Raise ValueError /\ snd (fst r) = [] /\ snd r = cfg).
Proof. apply check_developer_commands_step. Qed.

(** The third way on a run: the master names an agent with a superscript
    two, which [isdigit] accepts and [int] refuses. *)
Example superscript_is_refused :
  py_isdigit "²" = true /\
  check_developer_commands sample_config (mkEvent GroupMessageEvent 10001 "参谋 ²") =
    (Raise ValueError, [], sample_config) /\
  check_developer_commands sample_config (mkEvent PrivateMessageEvent 10001 "变卦²") =
    (Raise ValueError, [], sample_config).
Proof. repeat split. Qed.

(** X16. No sequence of messages, those that end with an exception
    included, changes the master, the guest list or the permission mode;
    the master stays an admin; and the agents never become more than two,
    or than there were at the start if that was more. *)
Theorem run_commands_keeps_config `{StrLib}
    (cfg : PluginConfig) (events : list MessageEvent) :
  let cfg' := run_commands cfg events in
  master_qq cfg' = master_qq cfg /\
  vip_users cfg' = vip_users cfg /\
  permission_mode cfg' = permission_mode cfg /\
  is_admin cfg' (master_qq cfg) = true /\
  (length (agents cfg') <= Nat.max 2 (length (agents cfg)))%nat.
Proof.
  revert cfg. induction events as [|event events IH]; intros cfg; simpl.
  - repeat split; [|lia].
    unfold is_admin, is_master. by rewrite bool_decide_eq_true_2.
  - pose proof (check_developer_commands_step cfg event)
      as (_ & Hmaster & Hvip & Hmode & Hlen).
    destruct (IH (snd (check_developer_commands cfg event)))
      as (Hm' & Hv' & Hp' & Hadmin' & Hlen').
    rewrite Hmaster in Hm', Hadmin'. rewrite Hvip in Hv'. rewrite Hmode in Hp'.
    repeat split; try done. lia.
Qed.

(** Two admins fill the second seat and ask for a third. *)
Example run_commands_two_seats :
  agents (run_commands sample_config
            [ mkEvent PrivateMessageEvent 10001 "参谋 10003";
              mkEvent PrivateMessageEvent 10003 "参谋 10004" ]) = [ 10002; 10003 ].
Proof. reflexivity. Qed.

(** X17. The agent list is a list, not a set. For a text that [isdigit]
    accepts and [int] reads as a number, [_handle_agent_add] with a free
    seat appends the number even when it is already an agent, and
    [_handle_agent_remove] drops one occurrence, so the number is still an
    agent afterwards exactly when it was listed twice. For a text that
    [isdigit] accepts and [int] refuses, both end with [ValueError] before
    they send or change anything. *)
Theorem agent_seats `{StrLib} (cfg : PluginConfig) (qq_str : string) :
  py_isdigit qq_str = true ->
  match py_int qq_str with
  | Some qq =>
    ((length (agents cfg) < 2)%nat ->
     agents (snd (_handle_agent_add cfg qq_str)) = agents cfg ++ [ qq ]) /\
    (is_agent (snd (_handle_agent_remove cfg qq_str)) qq = true <->
     (2 <= count_occ Z.eq_dec (agents cfg) qq)%nat)
  | None =>
    _handle_agent_add cfg qq_str = (Raise ValueError, [], cfg) /\
    _handle_agent_remove cfg qq_str = (Raise ValueError, [], cfg)
  end.
Proof.
  intros Hdigit. unfold _handle_agent_add, _handle_agent_remove.
  rewrite Hdigit. cbn [negb].
  destruct (py_int qq_str) as [qq|]; [|done].
  split.
  - intros Hfree. apply Nat.leb_gt in Hfree. by rewrite Hfree.
  - unfold is_agent. rewrite bool_decide_eq_true.
    destruct (bool_decide (qq ∈ agents cfg)) eqn:Hin; simpl.
    + rewrite ConfigExtSpec.count_occ_elem_of, ConfigExtSpec.py_remove_count.
      rewrite bool_decide_eq_true_2 by done. lia.
    + apply bool_decide_eq_false in Hin. split; [done|].
      rewrite ConfigExtSpec.count_occ_elem_of in Hin. lia.
Qed.

Lemma agent_seats_witness :
  let cfg := set_agents sample_config [10002; 10002] in
  py_isdigit "10002" = true /\
  ((length (agents cfg) < 2)%nat ->
   agents (snd (_handle_agent_add cfg "10002")) = agents cfg ++ [ 10002%Z ]) /\
  (is_agent (snd (_handle_agent_remove cfg "10002")) 10002%Z = true <->
   (2 <= count_occ Z.eq_dec (agents cfg) 10002%Z)%nat).
Proof.
  intros cfg. split; [reflexivity|].
  exact (agent_seats cfg "10002" eq_refl).
Defined.

(** X18. An admin who asks for a shutdown gets the code in the reply (the
    master gets it in a private message), and [verify_shutdown] with that
    code succeeds for the one who asked and fails for everybody else. *)
Theorem shutdown_round_trip (cfg : PluginConfig) (user_id : Z) (code : string)
    (codes : gmap string string) :
  is_admin cfg user_id = true ->
  let r := handle_shutdown cfg user_id code codes in
  (exists notice reply,
     fst r = [ SendPrivateMsg (master_qq cfg) (notice +:+ code +:+ " (有效期10分钟)");
               Send (reply +:+ code) ]) /\
  verify_shutdown (snd r) user_id code = (true, [ Send "已闭关，有缘再见" ]) /\
  (forall other, other <> user_id ->
     verify_shutdown (snd r) other code = (false, [ Send shutdown_failed ])).
Proof.
  intros Hadmin r. unfold r, handle_shutdown. rewrite Hadmin. simpl.
  split; [|split].
  - exists "关闭验证码: ",
      ("已给主人发送关闭码，输入正确即可关闭本bot" +:+ newline +:+ "请输入: ").
    reflexivity.
  - unfold verify_shutdown. rewrite lookup_insert_eq. by rewrite String.eqb_refl.
  - intros other Hother. unfold verify_shutdown. rewrite lookup_insert_eq.
    destruct (String.eqb (pretty user_id) (pretty other)) eqn:Heq; [|done].
    apply String.eqb_eq in Heq. by apply (inj pretty) in Heq.
Qed.

Lemma shutdown_round_trip_witness :
  is_admin sample_config 10002 = true /\
  let r := handle_shutdown sample_config 10002 "9f3a61c0" ∅ in
  (exists notice reply,
     fst r = [ SendPrivateMsg (master_qq sample_config)
                 (notice +:+ "9f3a61c0" +:+ " (有效期10分钟)");
               Send (reply +:+ "9f3a61c0") ]) /\
  verify_shutdown (snd r) 10002 "9f3a61c0" = (true, [ Send "已闭关，有缘再见" ]) /\
  (forall other, other <> 10002 ->
     verify_shutdown (snd r) other "9f3a61c0" = (false, [ Send shutdown_failed ])).
Proof.
  split; [reflexivity|].
  exact (shutdown_round_trip sample_config 10002 "9f3a61c0" ∅ eq_refl).
Defined.

(** X19. Under a fixed configuration, whatever shutdown requests came
    before, only an admin can pass [verify_shutdown]; a request by anybody
    else sends nothing and stores nothing. *)
Theorem shutdown_only_admins (cfg : PluginConfig) (codes : gmap string string)
    (user_id : Z) (code : string) :
  codes_reachable cfg codes ->
  (fst (verify_shutdown codes user_id code) = true -> is_admin cfg user_id = true) /\
  (is_admin cfg user_id = false ->
   handle_shutdown cfg user_id code codes = ([], codes)).
Proof.
  intros Hreach. split.
  - assert (Hinv : forall c owner, codes !! c = Some owner ->
                     exists u, owner = pretty u /\ is_admin cfg u = true).
    { induction Hreach as [|u c codes _ IH]; intros c' owner.
      - by rewrite lookup_empty.
      - unfold handle_shutdown.
        destruct (is_admin cfg u) eqn:Hu; simpl; [|apply IH].
        destruct (decide (c' = c)) as [->|Hne].
        + rewrite lookup_insert_eq. intros [= <-]. by exists u.
        + rewrite lookup_insert_ne by done. apply IH. }
    unfold verify_shutdown.
    destruct (codes !! code) as [owner|] eqn:Hcode; [|done].
    destruct (String.eqb owner (pretty user_id)) eqn:Heq; [|done].
    intros _. apply String.eqb_eq in Heq.
    destruct (Hinv code owner Hcode) as (u & Hu & Hadmin).
    rewrite Heq in Hu. by apply (inj pretty) in Hu as ->.
  - intros Hno. unfold handle_shutdown. by rewrite Hno.
Qed.

Lemma shutdown_only_admins_witness :
  let codes := snd (handle_shutdown sample_config 10002 "9f3a61c0" ∅) in
  codes_reachable sample_config codes /\
  (fst (verify_shutdown codes 20000 "9f3a61c0") = true ->
   is_admin sample_config 20000 = true) /\
  (is_admin sample_config 20000 = false ->
   handle_shutdown sample_config 20000 "9f3a61c0" codes = ([], codes)).
Proof.
  intros codes.
  assert (Hr : codes_reachable sample_config codes).
  { apply codes_step, codes_initial. }
  split; [exact Hr|].
  exact (shutdown_only_admins sample_config codes 20000 "9f3a61c0" Hr).
Defined.

Lemma notify_admins_recipients event clock k admins :
  map recipient (notify_admins event clock k admins) = map Some admins.
Proof.
  revert k. induction admins as [|a admins IH]; intros k; simpl; [done|].
  by rewrite IH.
Qed.

(** X20. With the permission mode on, [request_permission] writes one
    private message to the master and one to each agent, in that order and
    to nobody else, and files the request, not yet answered, under
    [f"{time}_{user_id}_{group_id}"] (replacing an earlier request with the
    same three values); the other requests are untouched. With the mode
    off it does nothing. *)
Theorem request_permission_notifies_admins (cfg : PluginConfig)
    (event : GroupMessage) (clock : nat -> string)
    (requests : gmap string PermissionRequest) :
  permission_mode cfg = true ->
  let r := request_permission cfg event clock requests in
  map recipient (fst r) = map Some (master_qq cfg :: agents cfg) /\
  (forall to, Some to ∈ map recipient (fst r) -> is_admin cfg to = true) /\
  (exists request,
     snd r !! request_id_of event = Some request /\
     responded request = false /\
     req_user_id request = sender_id event /\
     req_group_id request = group_id event) /\
  (forall key, key <> request_id_of event -> snd r !! key = requests !! key) /\
  (forall cfg0, permission_mode cfg0 = false ->
     request_permission cfg0 event clock requests = ([], requests)).
Proof.
  intros Hmode r. unfold r, request_permission. rewrite Hmode. simpl negb. cbv iota.
  cbn [fst snd].
  assert (Hto : map recipient (notify_admins event clock 1 (master_qq cfg :: agents cfg))
                = map Some (master_qq cfg :: agents cfg))
    by apply notify_admins_recipients.
  split; [exact Hto|]. split; [|split; [|split]].
  - intros to. rewrite Hto. intros Hin.
    apply list_elem_of_fmap in Hin as (a & [= ->] & Hin).
    unfold is_admin, is_master, is_agent.
    apply elem_of_cons in Hin as [->|Hin].
    + by rewrite bool_decide_eq_true_2.
    + rewrite (bool_decide_eq_true_2 (a ∈ agents cfg)) by done.
      by destruct (bool_decide _).
  - eexists. rewrite lookup_insert_eq. done.
  - intros key Hkey. by rewrite lookup_insert_ne.
  - intros cfg0 Hoff. by rewrite Hoff.
Qed.

Lemma request_permission_notifies_admins_witness :
  let cfg := {| master_qq := 10001; agents := [10002]; vip_users := [];
                debug_mode := false; permission_mode := true;
                group_approve_mode := false; shutdown_code := None |} in
  let event := mkGroupMessage 42 1700000000 20000 77 None (Some "guest") "hello" in
  permission_mode cfg = true /\
  let r := request_permission cfg event (fun _ => "2024-03-02 12:30:00") ∅ in
  map recipient (fst r) = map Some (master_qq cfg :: agents cfg) /\
  (forall to, Some to ∈ map recipient (fst r) -> is_admin cfg to = true) /\
  (exists request,
     snd r !! request_id_of event = Some request /\
     responded request = false /\
     req_user_id request = sender_id event /\
     req_group_id request = group_id event) /\
  (forall key, key <> request_id_of event ->
     snd r !! key = (∅ : gmap string PermissionRequest) !! key) /\
  (forall cfg0, permission_mode cfg0 = false ->
     request_permission cfg0 event (fun _ => "2024-03-02 12:30:00") ∅ = ([], ∅)).
Proof.
  intros cfg event. split; [reflexivity|].
  exact (request_permission_notifies_admins cfg event
           (fun _ => "2024-03-02 12:30:00") ∅ eq_refl).
Defined.

End DeveloperExtSpec.

(** ** Group messages and join requests *)

Module GroupManageSpec.
Import Config ConfigExt Developer DeveloperExt GroupManage.
Local Open Scope list_scope.

Lemma scan_words_find `{TextLib} (words : list string) (message : string) :
  scan_words (map JStr words) message =
  Done (find (fun word => py_contains (py_lower word) (py_lower message)) words).
Proof.
  induction words as [|word words IH]; simpl; [done|].
  by destruct (py_contains _ _).
Qed.

(** X21. With a blocked-words file of the expected form (a dict whose
    ["words"] is a list of strings, no patterns) a message from somebody
    who is not an admin is compared, in lower case, with each word in
    order. At the first word found in it the handler asks for the message
    to be deleted and warns the group, then turns to the violation log: a
    log that reads gets one more entry, a log that is missing or is not
    JSON is started anew with that entry, and the handler returns [True];
    a log whose bytes are not UTF-8 ends the call with
    [UnicodeDecodeError] after the two requests, the file left as it is.
    When no word is found the handler returns [False] having done
    nothing. *)
Theorem check_blocked_words_first_match `{TextLib} (cfg : PluginConfig)
    (fields : list (string * json)) (words : list string)
    (event : GroupMessage) (time : string) (log : Document (list Violation)) :
  is_admin cfg (sender_id event) = false ->
  dict_get fields "words" = Some (JList (map JStr words)) ->
  dict_get fields "regex_patterns" = None ->
  check_blocked_words cfg (JDict fields) event time log =
    match find (fun word => py_contains (py_lower word)
                              (py_lower (event_message event))) words with
    | Some word =>
      let calls := [ DeleteMsg (message_id event);
                     SendGroupMsg (group_id event) (blocked_warning event word) ] in
      let entry := mkViolation (sender_id event) (group_id event) word time in
      match log with
      | Holds logs => (Done true, calls, Holds (logs ++ [ entry ]))
      | Missing => (Done true, calls, Holds [ entry ])
      | Corrupt => (Done true, calls, Holds [ entry ])
      | Undecodable => (Fails (Builtin UnicodeDecodeError), calls, Undecodable)
      end
    | None => (Done false, [], log)
    end.
Proof.
  intros Hadmin Hwords Hpatterns.
  unfold check_blocked_words, json_get. rewrite Hadmin, Hwords, Hpatterns.
  simpl json_iter. cbv iota beta. rewrite scan_words_find.
  destruct (find _ words) as [word|]; [|done].
  unfold _handle_blocked_word, _log_violation. by destruct log.
Qed.

Lemma check_blocked_words_first_match_witness :
  let fields := [ ("words", JList (map JStr [ "spam"; "Casino" ])) ] in
  let event := mkGroupMessage 42 1700000000 20000 77 None (Some "guest")
                 "join my CASINO now" in
  let calls := [ DeleteMsg 42;
                 SendGroupMsg 77 (blocked_warning event "Casino") ] in
  is_admin sample_config (sender_id event) = false /\
  dict_get fields "words" = Some (JList (map JStr [ "spam"; "Casino" ])) /\
  dict_get fields "regex_patterns" = None /\
  check_blocked_words sample_config (JDict fields) event "12:30:00" Corrupt =
    (Done true, calls, Holds [ mkViolation 20000 77 "Casino" "12:30:00" ]) /\
  check_blocked_words sample_config (JDict fields) event "12:30:00" Undecodable =
    (Fails (Builtin UnicodeDecodeError), calls, Undecodable).
Proof.
  intros fields event calls.
  split; [reflexivity|]. split; [reflexivity|]. split; [reflexivity|].
  split.
  - exact (check_blocked_words_first_match sample_config fields [ "spam"; "Casino" ]
             event "12:30:00" Corrupt eq_refl eq_refl eq_refl).
  - exact (check_blocked_words_first_match sample_config fields [ "spam"; "Casino" ]
             event "12:30:00" Undecodable eq_refl eq_refl eq_refl).
Defined.

Lemma check_developer_commands_outsider `{StrLib} cfg uid text :
  is_admin cfg uid = false ->
  check_developer_commands cfg (mkEvent GroupMessageEvent uid text) = (Ok false, [], cfg).
Proof. intros Hno. unfold check_developer_commands; simpl. by rewrite Hno. Qed.

(** X22. On a fresh installation blocked_words.json is created holding a
    list, and a list has no [get]: once [_ensure_data_dir] and [_load_json]
    have run on a directory without that file, [handle_message] ends with
    [AttributeError] for every message of a sender who is not an admin,
    before anything is sent or stored. Had the file been corrupt instead,
    [_load_json] would have given [{}] and the same message would pass. *)
Theorem fresh_install_blocked_words `{StrLib} `{TextLib} (cfg : PluginConfig)
    (data_dir : string -> Document json) (event : GroupMessage) (time : string)
    (clock : nat -> string) (requests : gmap string PermissionRequest)
    (log : Document (list Violation)) :
  data_dir "blocked_words.json" = Missing ->
  is_admin cfg (sender_id event) = false ->
  exists blocked_words,
    _load_json (_ensure_data_dir data_dir) "blocked_words.json" = Ok blocked_words /\
    handle_message cfg blocked_words event time clock requests log =
      (Fails (AttributeError "get"), [], cfg, requests, log) /\
    fst (fst (fst (fst
      (handle_message (set_permission_off cfg) (JDict []) event time clock requests log))))
      = Done tt.
Proof.
  intros Hmissing Hadmin. exists (JList []). split; [|split].
  - unfold _load_json, _ensure_data_dir.
    by rewrite ConfigExtSpec.ensure_files_spec, Hmissing.
  - unfold handle_message.
    rewrite (check_developer_commands_outsider cfg _ _ Hadmin).
    unfold check_blocked_words. by rewrite Hadmin.
  - unfold handle_message.
    rewrite check_developer_commands_outsider by done.
    unfold check_blocked_words.
    replace (is_admin (set_permission_off cfg) (sender_id event)) with false by done.
    reflexivity.
Qed.

Lemma fresh_install_blocked_words_witness :
  let event := mkGroupMessage 42 1700000000 20000 77 None (Some "guest") "hello" in
  (fun _ : string => @Missing json) "blocked_words.json" = Missing /\
  is_admin sample_config (sender_id event) = false /\
  exists blocked_words,
    _load_json (_ensure_data_dir (fun _ => Missing)) "blocked_words.json" =
      Ok blocked_words /\
    handle_message sample_config blocked_words event "12:30:00" (fun _ => "12:30:00")
      ∅ Missing =
      (Fails (AttributeError "get"), [], sample_config, ∅, Missing) /\
    fst (fst (fst (fst
      (handle_message (set_permission_off sample_config) (JDict []) event "12:30:00"
         (fun _ => "12:30:00") ∅ Missing)))) = Done tt.
Proof.
  intros event. split; [reflexivity|]. split; [reflexivity|].
  exact (fresh_install_blocked_words sample_config (fun _ => Missing) event
           "12:30:00" (fun _ => "12:30:00") ∅ Missing eq_refl eq_refl).
Defined.

(** X23. A message from an admin is never scanned for blocked words, never
    logged and never turned into a permission request, whatever the
    blocked-words file holds: [handle_message] ends the way
    [check_developer_commands] ends, and all it asks of the bot is the
    reply of that handler, if any. It ends normally unless the handler ends
    with the [ValueError] of [int()], and then nothing was sent and the
    configuration is as before. *)
Theorem handle_message_admin `{StrLib} `{TextLib} (cfg : PluginConfig)
    (blocked_words : json) (event : GroupMessage) (time : string)
    (clock : nat -> string) (requests : gmap string PermissionRequest)
    (log : Document (list Violation)) :
  is_admin cfg (sender_id event) = true ->
  let command :=
    check_developer_commands cfg
      (mkEvent GroupMessageEvent (sender_id event) (event_message event)) in
  handle_message cfg blocked_words event time clock requests log =
    (match fst (fst command) with
     | Ok _ => Done tt
     | Raise e => Fails (Builtin e)
     end,
     map Reply (snd (fst command)), snd command, requests, log) /\
  (forall e, fst (fst command) = Raise e ->
     e = ValueError /\ snd (fst command) = [] /\ snd command = cfg).
Proof.
  intros Hadmin command. unfold handle_message.
  pose proof (DeveloperExtSpec.check_developer_commands_step cfg
                (mkEvent GroupMessageEvent (sender_id event) (event_message event)))
    as [Hshape _].
  fold command in Hshape. fold command.
  destruct command as [[handled sent] cfg1]. simpl in Hshape |- *.
  destruct Hshape as [[-> _]|[(-> & -> & ->)|(-> & -> & ->)]].
  - split; [done|]. intros e [=].
  - split; [|intros e [=]].
    unfold check_blocked_words. rewrite Hadmin. simpl.
    by rewrite andb_false_r.
  - split; [done|]. by intros e [= <-].
Qed.

Lemma handle_message_admin_witness :
  let event := mkGroupMessage 42 1700000000 10001 77 None (Some "boss") "观星" in
  is_admin sample_config (sender_id event) = true /\
  handle_message sample_config (JList []) event "12:30:00" (fun _ => "12:30:00")
    ∅ Missing =
    (Done tt, [ Reply (Send "知道了，小生眼观六路，耳听八方。") ],
     set_group_approve_mode sample_config true, ∅, Missing).
Proof.
  intros event. split; [reflexivity|].
  exact (proj1 (handle_message_admin sample_config (JList []) event "12:30:00"
                  (fun _ => "12:30:00") ∅ Missing eq_refl)).
Defined.

(** The other ending on a run: the master names an agent with a superscript
    two in a group. *)
Example handle_message_superscript :
  handle_message sample_config (JList [])
    (mkGroupMessage 42 1700000000 10001 77 None (Some "boss") "参谋 ²")
    "12:30:00" (fun _ => "12:30:00") ∅ Missing =
    (Fails (Builtin ValueError), [], sample_config, ∅, Missing).
Proof. reflexivity. Qed.

(** Closes a four-part goal about a run whose calls are an explicit list of
    at most one call. *)
Ltac by_cases_of_calls :=
  split; [|split; [|split]]; intros;
  first
    [ done
    | apply not_elem_of_nil
    | intros Hin; apply list_elem_of_singleton in Hin; discriminate Hin
    | match goal with
      | Hin : _ ∈ [] |- _ => by apply elem_of_nil in Hin
      | Hin : _ ∈ [_] |- _ => apply list_elem_of_singleton in Hin; discriminate Hin
      end ].

(** X24. [handle_request] never approves a blacklisted user, whatever the
    whitelist and the automatic check say, and never rejects anybody else;
    with the approval mode off it does nothing; and what it forwards goes
    to the master and the agents only. *)
Theorem handle_request_decisions (cfg : PluginConfig) (m : Manager)
    (whitelisted auto_approved : bool) (event : RequestEvent) :
  let calls := handle_request cfg m whitelisted auto_approved event in
  (is_blacklisted (request_user_id event) m = true ->
   forall flag' sub' reason, SetGroupAddRequest flag' sub' true reason ∉ calls) /\
  (is_blacklisted (request_user_id event) m = false ->
   forall flag' sub' reason, SetGroupAddRequest flag' sub' false reason ∉ calls) /\
  (group_approve_mode cfg = false -> calls = []) /\
  (forall to text, Reply (SendPrivateMsg to text) ∈ calls -> is_admin cfg to = true).
Proof.
  intros calls. unfold calls, handle_request. clear calls.
  assert (Hforward : forall comment to text,
            Reply (SendPrivateMsg to text) ∈ _forward_to_admins cfg event comment ->
            is_admin cfg to = true).
  { intros comment to text Hin. unfold _forward_to_admins in Hin.
    apply list_elem_of_fmap in Hin as (a & [= -> _] & Hin).
    unfold is_admin, is_master, is_agent.
    apply elem_of_cons in Hin as [->|Hin].
    - by rewrite bool_decide_eq_true_2.
    - rewrite (bool_decide_eq_true_2 (a ∈ agents cfg)) by done.
      by destruct (bool_decide _). }
  assert (Hnone : forall comment f s r,
            SetGroupAddRequest f s false r ∉ _forward_to_admins cfg event comment).
  { intros comment f s r Hin. unfold _forward_to_admins in Hin.
    by apply list_elem_of_fmap in Hin as (a & [=] & _). }
  destruct (negb (String.eqb (request_type event) "group") ||
            negb (String.eqb (sub_type event) "add")); [by_cases_of_calls|].
  destruct (group_approve_mode cfg) eqn:Hmode; simpl negb; cbv iota;
    [|by_cases_of_calls].
  destruct (is_blacklisted (request_user_id event) m) eqn:Hblack;
    [by_cases_of_calls|].
  destruct whitelisted; [by_cases_of_calls|].
  destruct auto_approved; [by_cases_of_calls|].
  split; [|split; [|split]]; [done|intros _ f s r; apply Hnone|done|apply Hforward].
Qed.

End GroupManageSpec.

(** ** Streak bookkeeping of the models *)

Module ModelsSpec.
Import Models.
Local Open Scope Z_scope.

(** X25. [UserModel.get_checkin_streak] reports 0 for every user at every
    moment: without a last check-in it returns 0, for a last check-in of
    another day it returns 0, and for one of today it returns the number of
    days between today and today. *)
Theorem get_checkin_streak_zero (last_checkin : option DateTime) (now : DateTime) :
  get_checkin_streak last_checkin now = 0.
Proof.
  unfold get_checkin_streak.
  destruct last_checkin as [last|]; [|reflexivity].
  cbv zeta.
  destruct (Z.eqb_spec (ordinal now) (ordinal last)) as [Heq|_]; [|reflexivity].
  rewrite Heq. apply Z.sub_diag.
Qed.


(** Statistics alone are written as they stand. *)
Lemma stats_dict_dumps stats :
  exists j, dump_to_file (stats_dict stats) = (Done tt, Holds j).
Proof. eexists. reflexivity. Qed.









End ModelsSpec.

(** ** Cutting a long message *)

Module MessageUtilsSpec.
Import MessageUtils.
Local Open Scope Z_scope.
Local Open Scope list_scope.

(** A chunk that is not empty and respects the limit. *)
Definition fits (max_len : Z) (chunk : text) : Prop :=
  1 <= len chunk <= max_len.

Lemma letters_app (s t : text) : letters (s ++ t) = letters s ++ letters t.
Proof. apply filter_app. Qed.

Lemma letters_newline (s : text) : letters (newline :: s) = letters s.
Proof. unfold letters. rewrite filter_cons_False; [reflexivity|]. intros H. apply H. reflexivity. Qed.

Lemma letters_letter (c : N) (s : text) : c <> newline -> letters (c :: s) = c :: letters s.
Proof. intros H. unfold letters. rewrite filter_cons_True; [reflexivity|exact H]. Qed.

Lemma letters_idemp (s : text) : letters (letters s) = letters s.
Proof.
  induction s as [|c s IH]; [reflexivity|].
  destruct (decide (c = newline)) as [->|Hc].
  - rewrite letters_newline. exact IH.
  - rewrite (letters_letter c s Hc), (letters_letter c _ Hc), IH. reflexivity.
Qed.

Lemma concat_split_lines (s : text) : concat (split_lines s) = letters s.
Proof.
  induction s as [|c s IH]; [reflexivity|].
  cbn [split_lines].
  destruct (N.eqb_spec c newline) as [->|Hc].
  - rewrite letters_newline. exact IH.
  - rewrite (letters_letter c s Hc), <- IH.
    destruct (split_lines s) as [|line lines]; reflexivity.
Qed.

Lemma extend_chunk_letters (current para : text) :
  letters (extend_chunk current para) = letters current ++ letters para.
Proof.
  destruct current as [|c current]; [reflexivity|].
  unfold extend_chunk. rewrite letters_app, letters_newline. reflexivity.
Qed.

Lemma extend_chunk_len (current para : text) :
  len (extend_chunk current para) <= len current + len para + 1.
Proof.
  destruct current as [|c current]; unfold extend_chunk, len.
  - cbn [length]. lia.
  - rewrite length_app. cbn [length]. lia.
Qed.

Lemma slices_loop_concat (fuel n : nat) (para : text) :
  (0 < n)%nat -> (length para <= fuel)%nat ->
  concat (slices_loop fuel n para) = para.
Proof.
  intros Hn. revert para.
  induction fuel as [|fuel IH]; intros para Hfuel.
  - destruct para; [reflexivity|cbn in Hfuel; lia].
  - destruct para as [|c para]; [reflexivity|].
    cbn [slices_loop concat].
    rewrite IH; [apply take_drop|].
    rewrite length_drop. cbn [length] in *. lia.
Qed.

Lemma slices_loop_fit (fuel n : nat) (para : text) :
  (0 < n)%nat -> Forall (fits (Z.of_nat n)) (slices_loop fuel n para).
Proof.
  intros Hn. revert para.
  induction fuel as [|fuel IH]; intros para; [constructor|].
  destruct para as [|c para]; [constructor|].
  cbn [slices_loop]. constructor; [|apply IH].
  unfold fits, len. rewrite length_take. cbn [length]. lia.
Qed.

Lemma split_step_ok (max_len : Z) (chunks : list text) (current para : text) :
  1 <= max_len ->
  Forall (fits max_len) chunks ->
  len current <= max_len ->
  exists chunks' current',
    split_step max_len (chunks, current) para = Ok (chunks', current') /\
    Forall (fits max_len) chunks' /\
    len current' <= max_len /\
    letters (concat chunks' ++ current') =
      letters (concat chunks ++ current) ++ letters para.
Proof.
  intros Hmax Hchunks Hcurrent.
  unfold split_step.
  destruct (Z.ltb_spec max_len (len current + len para + 1)) as [Hfull|Hroom].
  - assert (Hflushed : exists flushed,
        (match current with [] => (chunks, current) | _ => (chunks ++ [ current ], []) end)
          = (flushed, []) /\
        Forall (fits max_len) flushed /\
        letters (concat flushed) = letters (concat chunks ++ current)).
    { destruct current as [|c current].
      - exists chunks. rewrite app_nil_r. auto.
      - exists (chunks ++ [ c :: current ]). split; [reflexivity|]. split.
        + apply Forall_app. split; [exact Hchunks|].
          constructor; [|constructor].
          unfold fits, len in *. cbn [length] in *. lia.
        + rewrite concat_app. cbn [concat]. rewrite app_nil_r. reflexivity. }
    destruct Hflushed as (flushed & -> & Hfl & Hletters).
    destruct (Z.ltb_spec max_len (len para)) as [Hlong|Hshort].
    + unfold slices.
      destruct (Z.eqb_spec max_len 0) as [?|_]; [lia|].
      destruct (Z.ltb_spec max_len 0) as [?|_]; [lia|].
      cbn [rbind].
      eexists _, _. split; [reflexivity|].
      assert (Hn : (0 < Z.to_nat max_len)%nat) by lia.
      split; [|split].
      * apply Forall_app. split; [exact Hfl|].
        pose proof (slices_loop_fit (length para) _ para Hn) as Hfit.
        rewrite Z2Nat.id in Hfit by lia. exact Hfit.
      * unfold len. cbn [length]. lia.
      * rewrite app_nil_r, concat_app, slices_loop_concat by (auto; lia).
        rewrite letters_app, Hletters. reflexivity.
    + eexists _, _. split; [reflexivity|].
      split; [exact Hfl|]. split.
      * cbn [extend_chunk]. exact Hshort.
      * cbn [extend_chunk]. rewrite letters_app, Hletters. reflexivity.
  - eexists _, _. split; [reflexivity|].
    split; [exact Hchunks|]. split.
    + pose proof (extend_chunk_len current para). lia.
    + rewrite !letters_app, extend_chunk_letters, app_assoc. reflexivity.
Qed.

Lemma split_loop_ok (max_len : Z) (paragraphs : list text) :
  1 <= max_len ->
  forall (chunks : list text) (current : text),
  Forall (fits max_len) chunks ->
  len current <= max_len ->
  exists chunks' current',
    split_loop max_len (chunks, current) paragraphs = Ok (chunks', current') /\
    Forall (fits max_len) chunks' /\
    len current' <= max_len /\
    letters (concat chunks' ++ current') =
      letters (concat chunks ++ current) ++ letters (concat paragraphs).
Proof.
  intros Hmax.
  induction paragraphs as [|para rest IH]; intros chunks current Hchunks Hcurrent.
  - exists chunks, current. cbn [split_loop concat letters].
    rewrite app_nil_r. auto.
  - destruct (split_step_ok max_len chunks current para Hmax Hchunks Hcurrent)
      as (chunks1 & current1 & Hstep & Hchunks1 & Hcurrent1 & Hletters1).
    destruct (IH chunks1 current1 Hchunks1 Hcurrent1)
      as (chunks2 & current2 & Hloop & Hchunks2 & Hcurrent2 & Hletters2).
    exists chunks2, current2.
    cbn [split_loop]. rewrite Hstep. cbn [rbind].
    split; [exact Hloop|]. split; [exact Hchunks2|]. split; [exact Hcurrent2|].
    rewrite Hletters2, Hletters1. cbn [concat].
    rewrite (letters_app para), app_assoc. reflexivity.
Qed.

Lemma split_message_ok (msg : text) (max_len : Z) :
  1 <= max_len ->
  exists chunks,
    split_message msg max_len = Ok chunks /\
    Forall (fun chunk => len chunk <= max_len) chunks /\
    (msg <> [] -> Forall (fun chunk => chunk <> []) chunks) /\
    letters (concat chunks) = letters msg.
Proof.
  intros Hmax. unfold split_message.
  destruct (Z.leb_spec (len msg) max_len) as [Hshort|Hlong].
  - exists [ msg ]. split; [reflexivity|]. split; [|split].
    + constructor; [exact Hshort|constructor].
    + intros Hmsg. constructor; [exact Hmsg|constructor].
    + cbn [concat]. rewrite app_nil_r. reflexivity.
  - destruct (split_loop_ok max_len (split_lines msg) Hmax [] [])
      as (chunks & current & Hloop & Hchunks & Hcurrent & Hletters).
    { constructor. }
    { unfold len. cbn [length]. lia. }
    unfold text in *. rewrite Hloop. cbn [rbind].
    cbn [concat app] in Hletters.
    rewrite concat_split_lines, letters_idemp in Hletters.
    assert (Hnonempty : forall chunk : text, fits max_len chunk -> chunk <> []).
    { intros chunk Hfit ->. unfold fits, len in Hfit. cbn [length] in Hfit. lia. }
    assert (Hwithin : forall chunk : text, fits max_len chunk -> len chunk <= max_len).
    { intros chunk Hfit. apply Hfit. }
    destruct current as [|c current].
    + exists chunks. split; [reflexivity|]. rewrite app_nil_r in Hletters.
      split; [|split; [intros _|exact Hletters]].
      * eapply Forall_impl; [exact Hchunks|exact Hwithin].
      * eapply Forall_impl; [exact Hchunks|exact Hnonempty].
    + exists (chunks ++ [ c :: current ]). split; [reflexivity|].
      split; [|split; [intros _|]].
      * apply Forall_app. split.
        -- eapply Forall_impl; [exact Hchunks|exact Hwithin].
        -- constructor; [exact Hcurrent|constructor].
      * apply Forall_app. split.
        -- eapply Forall_impl; [exact Hchunks|exact Hnonempty].
        -- constructor; [discriminate|constructor].
      * rewrite concat_app. cbn [concat]. rewrite app_nil_r. exact Hletters.
Qed.

Lemma split_loop_negative (max_len : Z) (paragraphs : list text) :
  max_len < 0 ->
  split_loop max_len ([], []) paragraphs = Ok ([], []).
Proof.
  intros Hneg.
  induction paragraphs as [|para rest IH]; [reflexivity|].
  cbn [split_loop split_step].
  assert (Hlen : 0 <= len para) by (unfold len; lia).
  replace (len []) with 0 by reflexivity.
  destruct (Z.ltb_spec max_len (0 + len para + 1)) as [_|?]; [|lia].
  destruct (Z.ltb_spec max_len (len para)) as [_|?]; [|lia].
  unfold slices.
  destruct (Z.eqb_spec max_len 0) as [?|_]; [lia|].
  destruct (Z.ltb_spec max_len 0) as [_|?]; [|lia].
  cbn [rbind app]. exact IH.
Qed.

Lemma split_loop_zero (paragraphs : list text) :
  split_loop 0 ([], []) paragraphs =
    if decide (concat paragraphs = []) then Ok ([], []) else Raise ValueError.
Proof.
  induction paragraphs as [|para rest IH]; [reflexivity|].
  cbn [split_loop split_step concat].
  replace (len []) with 0 by reflexivity.
  assert (Hlen : 0 <= len para) by (unfold len; lia).
  destruct (Z.ltb_spec 0 (0 + len para + 1)) as [_|?]; [|lia].
  destruct para as [|c para].
  - cbn [len length Z.of_nat Z.ltb Z.compare rbind extend_chunk app]. exact IH.
  - destruct (Z.ltb_spec 0 (len (c :: para))) as [_|Hbad].
    + cbn [slices Z.eqb rbind]. destruct (decide ((c :: para) ++ concat rest = [])) as [Habs|_];
        [discriminate Habs|reflexivity].
    + unfold len in Hbad. cbn [length] in Hbad. lia.
Qed.

(** X27. With a limit of at least 1 [split_message] returns a list of
    chunks, each at most [max_len] characters long, and for a message that
    is not empty no chunk is empty. *)
Theorem split_message_chunks_fit (msg : text) (max_len : Z) (Hmax : 1 <= max_len) :
  exists chunks,
    split_message msg max_len = Ok chunks /\
    Forall (fun chunk => len chunk <= max_len) chunks /\
    (msg <> [] -> Forall (fun chunk => chunk <> []) chunks).
Proof.
  destruct (split_message_ok msg max_len Hmax) as (chunks & Hrun & Hfit & Hfull & _).
  exists chunks. auto.
Qed.

Definition sample_text : text := [ 1; 2; 3; 10; 4; 5; 6; 7; 8; 9; 11; 10; 10; 12; 13 ]%N.

Lemma split_message_chunks_fit_witness :
  exists chunks,
    split_message sample_text 5 = Ok chunks /\
    Forall (fun chunk => len chunk <= 5) chunks /\
    (sample_text <> [] -> Forall (fun chunk => chunk <> []) chunks).
Proof.
  apply (split_message_chunks_fit sample_text 5). lia.
Defined.

(** X28. With a limit of at least 1 the chunks of [split_message], read one
    after the other without their line breaks, are the message without its
    line breaks: no other character is lost, added or moved. *)
Theorem split_message_keeps_letters (msg : text) (max_len : Z) (Hmax : 1 <= max_len) :
  exists chunks,
    split_message msg max_len = Ok chunks /\
    letters (concat chunks) = letters msg.
Proof.
  destruct (split_message_ok msg max_len Hmax) as (chunks & Hrun & _ & _ & Hletters).
  exists chunks. auto.
Qed.

Lemma split_message_keeps_letters_witness :
  exists chunks,
    split_message sample_text 5 = Ok chunks /\
    letters (concat chunks) = letters sample_text.
Proof.
  apply (split_message_keeps_letters sample_text 5). lia.
Defined.

(** X29. With a negative limit [split_message] returns the empty list for
    every message: the whole text is dropped without an error. *)
Theorem split_message_negative_limit (msg : text) (max_len : Z) (Hneg : max_len < 0) :
  split_message msg max_len = Ok [].
Proof.
  unfold split_message.
  assert (Hlen : 0 <= len msg) by (unfold len; lia).
  destruct (Z.leb_spec (len msg) max_len) as [?|_]; [lia|].
  pose proof (split_loop_negative max_len (split_lines msg) Hneg) as Hloop.
  unfold text in *. rewrite Hloop. reflexivity.
Qed.

Lemma split_message_negative_limit_witness :
  split_message sample_text (-1) = Ok [].
Proof.
  apply (split_message_negative_limit sample_text (-1)). lia.
Defined.

(** X30. With a limit of 0 [split_message] raises ValueError exactly for
    the messages that hold a character other than a line break; the empty
    message and messages of line breaks only are answered without error. *)
Theorem split_message_zero_limit (msg : text) :
  split_message msg 0 = Raise ValueError <-> letters msg <> [].
Proof.
  unfold split_message.
  destruct (Z.leb_spec (len msg) 0) as [Hempty|_].
  - destruct msg as [|c msg]; [|unfold len in Hempty; cbn [length] in Hempty; lia].
    split; [discriminate|]. intros H. exfalso. apply H. reflexivity.
  - pose proof (split_loop_zero (split_lines msg)) as Hloop.
    unfold text in *. rewrite Hloop, concat_split_lines.
    clear Hloop.
    match goal with
    | |- context [decide ?P] => destruct (decide P) as [Hnone|Hsome]
    end; cbn [rbind].
    + split; [discriminate|]. intros H. exfalso. exact (H Hnone).
    + split; [intros _; exact Hsome|reflexivity].
Qed.

End MessageUtilsSpec.
